(** * Smart-mirror memo module: a shallow embedding of [memo_module.py]

    The Python classes [VoiceRecognizer], [AudioRecorder], [VideoRecorder],
    [MemoManager] and [SmartMirrorMemo] are rendered as Rocq modules of the
    same names.  Objects are records, methods are functions that take the
    object (and the part of the world they touch) and return the updated
    object, the updated world and the Python return value.

    Text is a [string] holding the UTF-8 bytes of the Python [str]; the
    substring tests of the source give the same answer on bytes as on code
    points because UTF-8 is self-synchronising. *)

From Stdlib Require Import Ascii String Sorting.Sorted Sorting.Permutation.
From stdpp Require Import gmap strings list fin_maps.

Local Open Scope string_scope.

(** ** Python [str] methods used by the module *)

Module Str.

(** [s.startswith(p)] *)
Fixpoint startswith (s p : string) {struct p} : bool :=
  match p, s with
  | EmptyString, _ => true
  | String _ _, EmptyString => false
  | String a p', String b s' => if Ascii.eqb a b then startswith s' p' else false
  end.

(** [k in s] *)
Fixpoint contains (k s : string) : bool :=
  startswith s k ||
  match s with
  | EmptyString => false
  | String _ s' => contains k s'
  end.

(** [s.endswith(p)]: some tail of [s] is [p]. *)
Fixpoint endswith (s p : string) : bool :=
  String.eqb s p ||
  match s with
  | EmptyString => false
  | String _ s' => endswith s' p
  end.

(** One character of [str.lower()].  Only the ASCII capitals are cased
    among the bytes of ASCII and Hangul text; every other byte is kept.
    Capitals of other scripts, which [str.lower()] also maps, are outside
    the model; none of them yields a byte of a keyword of [COMMANDS]. *)
Definition lower_char (c : Ascii.ascii) : Ascii.ascii :=
  let n := Ascii.nat_of_ascii c in
  if (65 <=? n)%nat && (n <=? 90)%nat then Ascii.ascii_of_nat (n + 32) else c.

(** [s.lower()] *)
Fixpoint lower (s : string) : string :=
  match s with
  | EmptyString => EmptyString
  | String c s' => String (lower_char c) (lower s')
  end.

(** [s.replace(old, new)] for a non-empty [old]: every occurrence found
    scanning left to right is replaced, occurrences do not overlap.  [skip]
    counts the characters of a matched [old] still to be passed over. *)
Fixpoint replace_from (old new : string) (skip : nat) (s : string) : string :=
  match s with
  | EmptyString => EmptyString
  | String c s' =>
      match skip with
      | S k => replace_from old new k s'
      | O =>
          if startswith s old
          then new +:+ replace_from old new (String.length old - 1) s'
          else String c (replace_from old new 0 s')
      end
  end.

Definition replace (s old new : string) : string := replace_from old new 0 s.

(** [s.split(sep)] for a one-character separator. *)
Fixpoint split (sep : Ascii.ascii) (s : string) : list string :=
  match s with
  | EmptyString => [EmptyString]
  | String c s' =>
      if Ascii.eqb c sep then EmptyString :: split sep s'
      else match split sep s' with
           | h :: t => String c h :: t
           | [] => [String c EmptyString]
           end
  end.

(** Truth value of an [Optional[str]]: [None] and [''] are false. *)
Definition truthy (o : option string) : bool :=
  match o with
  | Some (String _ _) => true
  | _ => false
  end.

End Str.

(** [os.path.join(a, b)] of [posixpath]. *)
Definition path_join (a b : string) : string :=
  if Str.startswith b "/" then b
  else if String.eqb a EmptyString || Str.endswith a "/" then a +:+ b
  else a +:+ "/" +:+ b.

(** ** [class VoiceRecognizer] *)

Module VoiceRecognizer.

(** The class attribute [COMMANDS]; a [dict] iterates in insertion order,
    so it is an association list. *)
Definition COMMANDS : list (string * list string) :=
  [ ("voice_memo", ["음성 메모"; "음성 녹음"; "보이스 메모"; "voice memo"]);
    ("video_memo", ["영상 메모"; "영상 녹화"; "비디오 메모"; "비디오 녹화"; "video memo"]);
    ("stop", ["중지"; "스탑"; "그만"; "stop"; "끝"]) ].

(** The inner [for keyword in keywords] loop: does some keyword occur? *)
Definition any_keyword (keywords : list string) (text_lower : string) : bool :=
  existsb (fun keyword => Str.contains keyword text_lower) keywords.

(** The outer [for cmd_type, keywords in ...] loop. *)
Fixpoint first_command (commands : list (string * list string))
    (text_lower : string) : option string :=
  match commands with
  | [] => None
  | (cmd_type, keywords) :: rest =>
      if any_keyword keywords text_lower then Some cmd_type
      else first_command rest text_lower
  end.

Definition _match_command (text : string) : option string :=
  let text_lower := Str.lower text in
  first_command COMMANDS text_lower.

(** The recogniser object; [is_listening] is what steers the loop.  The
    [callback] is given where the loop is run. *)
Record t := { is_listening : bool }.

Definition new : t := {| is_listening := false |}.

(** [SPEECH_RECOGNITION_AVAILABLE] is the module-level flag set by
    [import speech_recognition]. *)
Definition start_listening (SPEECH_RECOGNITION_AVAILABLE : bool) (r : t) : t :=
  if negb SPEECH_RECOGNITION_AVAILABLE then r
  else if is_listening r then r
  else {| is_listening := true |}.

Definition stop_listening (r : t) : t := {| is_listening := false |}.

(** How one turn of [_listen_loop] ends: the service returned a text, or
    one of the exceptions the loop catches was raised. *)
Inductive heard :=
| Text (text : string)
| WaitTimeoutError
| UnknownValueError
| RequestError
| OtherException.

(** The test of [while self.is_listening]: a turn begins only when it
    holds; when it fails the loop ends, and the thread with it. *)
Definition _listen_test (r : t) : bool := is_listening r.

(** The body of the loop, once a turn has begun: the thread waits in
    [listen] and [recognize_google] and then, without reading
    [is_listening] again, matches the text and calls the callback, when
    there is one, with the command; every exception is swallowed. *)
Definition _listen_turn {S : Type} (callback : option (string -> S -> S))
    (h : heard) (s : S) : S :=
  match h with
  | Text text =>
      let command := _match_command text in
      match command, callback with
      | Some cmd, Some f => if Str.truthy command then f cmd s else s
      | _, _ => s
      end
  | _ => s
  end.

End VoiceRecognizer.

(** ** The file system seen by the module

    A path holds a regular file or a directory.  [denied] lists the paths
    on which the operating system refuses to unlink or to open for writing
    (permissions, read-only mount, a lock held elsewhere). *)

Definition bytes := list Byte.byte.

(** A video frame, an 8-bit picture as OpenCV reads it from a camera:
    [shape] is numpy's (rows, columns), that is (height, width),
    [n_channels] the number of colour channels (three for the BGR
    pictures a camera delivers, one for a grey picture); [image] names
    the picture. *)
Record Frame := { shape : nat * nat; n_channels : nat; image : nat }.

(** [cv2.error], raised by an OpenCV function that rejects its input. *)
Inductive cv2_error := AssertionFailed.

Inductive content :=
| Wav (nchannels sampwidth : nat) (framerate : N) (nframes : nat) (data : bytes)
| Mp4 (frame_size : nat * nat) (frames : list Frame).

Inductive node :=
| File (c : content)
| Directory.

Record FS := { nodes : gmap string node; denied : gset string }.

Inductive OSError := FileNotFoundError | IsADirectoryError | PermissionError.

Module os.

(** [os.path.exists(p)] *)
Definition exists_ (p : string) (fs : FS) : bool :=
  bool_decide (is_Some (nodes fs !! p)).

(** [os.remove(p)] *)
Definition remove (p : string) (fs : FS) : OSError + FS :=
  match nodes fs !! p with
  | None => inl FileNotFoundError
  | Some Directory => inl IsADirectoryError
  | Some (File _) =>
      if bool_decide (p ∈ denied fs) then inl PermissionError
      else inr {| nodes := delete p (nodes fs); denied := denied fs |}
  end.

(** Opening [p] for writing and storing [c]: [open(p, 'wb')], truncating. *)
Definition write (p : string) (c : content) (fs : FS) : OSError + FS :=
  match nodes fs !! p with
  | Some Directory => inl IsADirectoryError
  | _ =>
      if bool_decide (p ∈ denied fs) then inl PermissionError
      else inr {| nodes := <[p := File c]> (nodes fs); denied := denied fs |}
  end.

End os.

(** ** [class AudioRecorder]

    The module-level flag [PYAUDIO_AVAILABLE] is set once by
    [import pyaudio]; every function that reads it takes it as its first
    argument. *)

Module AudioRecorder.

Record t := {
  save_dir : string;
  is_recording : bool;
  _frames : list bytes;
  _current_file : option string;
  channels : nat;
  rate : N;
  chunk : nat
}.

(** [pyaudio.get_sample_size(pyaudio.paInt16)] *)
Definition sample_size : nat := 2.

(** [__init__]; the storage directory already exists when the recorders
    are built, so [os.makedirs(..., exist_ok=True)] changes nothing. *)
Definition new (save_dir : string) : t :=
  {| save_dir := save_dir; is_recording := false; _frames := [];
     _current_file := None; channels := 1; rate := 44100%N; chunk := 1024 |}.

(** [now] is [datetime.now().strftime("%Y%m%d_%H%M%S")] read by the call. *)
Definition start_recording (PYAUDIO_AVAILABLE : bool)
    (now : string) (a : t) : t * option string :=
  if negb PYAUDIO_AVAILABLE then (a, None)
  else if is_recording a then (a, _current_file a)
  else
    let timestamp := now in
    let file := path_join (save_dir a) ("voice_memo_" +:+ timestamp +:+ ".wav") in
    ({| save_dir := save_dir a; is_recording := true; _frames := [];
        _current_file := Some file; channels := channels a; rate := rate a;
        chunk := chunk a |},
     Some file).

(** What the input stream hands to one turn of the capture loop: a chunk
    of samples, or an exception (also raised when the device cannot be
    opened at all). *)
Inductive read :=
| Chunk (data : bytes)
| DeviceError.

(** [_record_loop], run on the reads the device delivers until the caller
    gets control back: [while self.is_recording] appends each chunk, an
    exception clears [is_recording] and leaves the loop. *)
Fixpoint _record_loop (reads : list read) (a : t) : t :=
  match reads with
  | [] => a
  | r :: rest =>
      if negb (is_recording a) then a
      else match r with
           | Chunk data =>
               _record_loop rest
                 {| save_dir := save_dir a; is_recording := is_recording a;
                    _frames := _frames a ++ [data];
                    _current_file := _current_file a; channels := channels a;
                    rate := rate a; chunk := chunk a |}
           | DeviceError =>
               {| save_dir := save_dir a; is_recording := false;
                  _frames := _frames a; _current_file := _current_file a;
                  channels := channels a; rate := rate a; chunk := chunk a |}
           end
  end.

(** The container [wave] writes: the header's frame count is the number
    of data bytes over the bytes per frame. *)
Definition wav_of (a : t) : content :=
  let data := concat (_frames a) in
  Wav (channels a) sample_size (rate a)
      (length data / (sample_size * channels a)) data.

(** [_save_wav]: the [try] swallows every error of [wave.open]. *)
Definition _save_wav (a : t) (fs : FS) : FS :=
  match _current_file a with
  | None => fs
  | Some file =>
      match os.write file (wav_of a) fs with
      | inr fs' => fs'
      | inl _ => fs
      end
  end.

Definition stop_recording (a : t) (fs : FS) : t * FS * option string :=
  if negb (is_recording a) then (a, fs, None)
  else
    let a' := {| save_dir := save_dir a; is_recording := false;
                 _frames := _frames a; _current_file := _current_file a;
                 channels := channels a; rate := rate a; chunk := chunk a |} in
    if negb (bool_decide (_frames a = [])) && Str.truthy (_current_file a)
    then (a', _save_wav a' fs, _current_file a)
    else (a', fs, None).

End AudioRecorder.

(** ** [class VideoRecorder] *)

Module VideoRecorder.

(** A [cv2.VideoWriter]: the file it was asked to write, the frame size
    it was given and whether the open succeeded ([isOpened()]). *)
Record VideoWriter := {
  target : string;
  writer_size : nat * nat;
  opened : bool
}.

Record t := {
  save_dir : string;
  is_recording : bool;
  _current_file : option string;
  _video_writer : option VideoWriter;
  _audio_recorder : option AudioRecorder.t;
  fps : nat;
  frame_size : nat * nat
}.

Definition new (save_dir : string) : t :=
  {| save_dir := save_dir; is_recording := false; _current_file := None;
     _video_writer := None; _audio_recorder := None; fps := 30;
     frame_size := (640, 480) |}.

(** [cv2.VideoWriter(path, fourcc, fps, frame_size)] never raises.  It
    opens, and creates the container on disk, when the OpenCV build has
    an encoder for the four-character code that takes the frame size and
    the file system lets it create the file; otherwise the writer stays
    closed and nothing is created.  [mp4v_opens] tells, for the build at
    hand, the frame sizes for which an 'mp4v' writer can open. *)
Definition open_writer (mp4v_opens : nat * nat -> bool) (path : string)
    (size : nat * nat) (fs : FS) : VideoWriter * FS :=
  if mp4v_opens size then
    match os.write path (Mp4 size []) fs with
    | inr fs' =>
        ({| target := path; writer_size := size; opened := true |}, fs')
    | inl _ =>
        ({| target := path; writer_size := size; opened := false |}, fs)
    end
  else ({| target := path; writer_size := size; opened := false |}, fs).

(** A width or a height of zero. *)
Definition empty_size (size : nat * nat) : bool :=
  (fst size =? 0)%nat || (snd size =? 0)%nat.

(** [writer.write(frame)] never raises: a writer that did not open
    ignores the call, and an opened colour writer stores a three-channel
    frame of its own size and silently drops any other. *)
Definition writer_write (w : VideoWriter) (frame : Frame) (fs : FS) : FS :=
  if opened w then
    if (n_channels frame =? 3)%nat
       && bool_decide (shape frame = (snd (writer_size w), fst (writer_size w)))
    then
      match nodes fs !! target w with
      | Some (File (Mp4 size frames)) =>
          {| nodes := <[target w := File (Mp4 size (frames ++ [frame]))]> (nodes fs);
             denied := denied fs |}
      | _ => fs
      end
    else fs
  else fs.

(** [cv2.resize(frame, size)] with [size] = (width, height): raises
    [cv2.error] on an empty picture and on an empty target size; the
    resampled picture keeps its channels and its name. *)
Definition resize (frame : Frame) (size : nat * nat) : cv2_error + Frame :=
  if empty_size (shape frame) || (n_channels frame =? 0)%nat || empty_size size
  then inl AssertionFailed
  else inr {| shape := (snd size, fst size); n_channels := n_channels frame;
              image := image frame |}.

(** The sidecar name computed from the video path. *)
Definition audio_file_of (current_file : string) : string :=
  Str.replace current_file ".mp4" "_audio.wav".

(** [now] is the clock reading taken here, [now_audio] the one taken
    inside the companion's own [start_recording]. *)
Definition start_recording (PYAUDIO_AVAILABLE : bool)
    (mp4v_opens : nat * nat -> bool) (now now_audio : string)
    (frame_size' : option (nat * nat)) (v : t) (fs : FS)
    : t * FS * option string :=
  if is_recording v then (v, fs, _current_file v)
  else
    let size := match frame_size' with
                | Some given => given
                | None => frame_size v
                end in
    let timestamp := now in
    let file := path_join (save_dir v) ("video_memo_" +:+ timestamp +:+ ".mp4") in
    let '(writer, fs1) := open_writer mp4v_opens file size fs in
    let audio_file := audio_file_of file in
    let rec0 := AudioRecorder.new (save_dir v) in
    let rec1 :=
      {| AudioRecorder.save_dir := AudioRecorder.save_dir rec0;
         AudioRecorder.is_recording := AudioRecorder.is_recording rec0;
         AudioRecorder._frames := AudioRecorder._frames rec0;
         AudioRecorder._current_file := Some audio_file;
         AudioRecorder.channels := AudioRecorder.channels rec0;
         AudioRecorder.rate := AudioRecorder.rate rec0;
         AudioRecorder.chunk := AudioRecorder.chunk rec0 |} in
    let rec2 :=
      if PYAUDIO_AVAILABLE
      then fst (AudioRecorder.start_recording PYAUDIO_AVAILABLE now_audio rec1)
      else rec1 in
    ({| save_dir := save_dir v; is_recording := true;
        _current_file := Some file; _video_writer := Some writer;
        _audio_recorder := Some rec2; fps := fps v; frame_size := size |},
     fs1, Some file).

(** [write_frame]: the error of [cv2.resize] is not caught and reaches
    the caller before anything is written. *)
Definition write_frame (frame : Frame) (v : t) (fs : FS) : cv2_error + FS :=
  match is_recording v, _video_writer v with
  | true, Some w =>
      if negb (snd (shape frame) =? fst (frame_size v))%nat
         || negb (fst (shape frame) =? snd (frame_size v))%nat
      then match resize frame (frame_size v) with
           | inl e => inl e
           | inr frame' => inr (writer_write w frame' fs)
           end
      else inr (writer_write w frame fs)
  | _, _ => inr fs
  end.

(** The companion's capture loop runs on its own thread while the video
    session lasts. *)
Definition audio_loop (reads : list AudioRecorder.read) (v : t) : t :=
  {| save_dir := save_dir v; is_recording := is_recording v;
     _current_file := _current_file v; _video_writer := _video_writer v;
     _audio_recorder := AudioRecorder._record_loop reads <$> _audio_recorder v;
     fps := fps v; frame_size := frame_size v |}.

Definition stop_recording (v : t) (fs : FS) : t * FS * option string :=
  if negb (is_recording v) then (v, fs, None)
  else
    let fs1 :=
      match _audio_recorder v with
      | Some a => snd (fst (AudioRecorder.stop_recording a fs))
      | None => fs
      end in
    ({| save_dir := save_dir v; is_recording := false;
        _current_file := _current_file v; _video_writer := None;
        _audio_recorder := None; fps := fps v; frame_size := frame_size v |},
     fs1, _current_file v).

End VideoRecorder.

(** ** [class SmartMirrorMemo] *)

Inductive Mode := voice | video.

#[global] Instance Mode_eq_dec : EqDecision Mode.
Proof. solve_decision. Defined.

(** A registered callable is known by its name; calling it leaves an
    entry in the trace of the run. *)
Definition Callback := nat.

Inductive Event :=
| recording_start (f : Callback) (mode : Mode)
| recording_stop (f : Callback) (mode : Mode) (filepath : option string).

(** The world outside the objects: the files and the calls made so far
    into the presentation layer, oldest first. *)
Record World := { files : FS; trace : list Event }.

Module SmartMirrorMemo.

Record t := {
  save_dir : string;
  audio_recorder : AudioRecorder.t;
  video_recorder : VideoRecorder.t;
  current_mode : option Mode;
  is_active : bool;
  on_recording_start : option Callback;
  on_recording_stop : option Callback
}.

Definition new (save_dir : string) : t :=
  {| save_dir := save_dir;
     audio_recorder := AudioRecorder.new save_dir;
     video_recorder := VideoRecorder.new save_dir;
     current_mode := None; is_active := false;
     on_recording_start := None; on_recording_stop := None |}.

(** [if self.on_recording_start: self.on_recording_start(mode)] *)
Definition notify_start (m : t) (mode : Mode) (tr : list Event) : list Event :=
  match on_recording_start m with
  | Some f => tr ++ [recording_start f mode]
  | None => tr
  end.

(** [if self.on_recording_stop: self.on_recording_stop(mode, filepath)] *)
Definition notify_stop (m : t) (mode : Mode) (filepath : option string)
    (tr : list Event) : list Event :=
  match on_recording_stop m with
  | Some f => tr ++ [recording_stop f mode filepath]
  | None => tr
  end.

Definition start_voice_memo (PYAUDIO_AVAILABLE : bool) (now : string)
    (m : t) (w : World) : t * World * option string :=
  match current_mode m with
  | Some _ => (m, w, None)
  | None =>
      let '(a, filepath) :=
        AudioRecorder.start_recording PYAUDIO_AVAILABLE now (audio_recorder m) in
      let m' := {| save_dir := save_dir m; audio_recorder := a;
                   video_recorder := video_recorder m;
                   current_mode := Some voice; is_active := is_active m;
                   on_recording_start := on_recording_start m;
                   on_recording_stop := on_recording_stop m |} in
      (m', {| files := files w; trace := notify_start m' voice (trace w) |},
       filepath)
  end.

Definition start_video_memo (PYAUDIO_AVAILABLE : bool)
    (mp4v_opens : nat * nat -> bool) (now now_audio : string)
    (frame_size : option (nat * nat)) (m : t) (w : World)
    : t * World * option string :=
  match current_mode m with
  | Some _ => (m, w, None)
  | None =>
      let '(v, fs, filepath) :=
        VideoRecorder.start_recording PYAUDIO_AVAILABLE mp4v_opens now
          now_audio frame_size (video_recorder m) (files w) in
      let m' := {| save_dir := save_dir m; audio_recorder := audio_recorder m;
                   video_recorder := v;
                   current_mode := Some video; is_active := is_active m;
                   on_recording_start := on_recording_start m;
                   on_recording_stop := on_recording_stop m |} in
      (m', {| files := fs; trace := notify_start m' video (trace w) |},
       filepath)
  end.

Definition write_video_frame (frame : Frame) (m : t) (w : World)
    : cv2_error + World :=
  match current_mode m with
  | Some video =>
      if VideoRecorder.is_recording (video_recorder m)
      then match VideoRecorder.write_frame frame (video_recorder m) (files w) with
           | inl e => inl e
           | inr fs => inr {| files := fs; trace := trace w |}
           end
      else inr w
  | _ => inr w
  end.

Definition stop_recording (m : t) (w : World) : t * World * option string :=
  match current_mode m with
  | None => (m, w, None)
  | Some mode =>
      let '(a, v, fs, filepath) :=
        match mode with
        | voice =>
            let '(a, fs, filepath) :=
              AudioRecorder.stop_recording (audio_recorder m) (files w) in
            (a, video_recorder m, fs, filepath)
        | video =>
            let '(v, fs, filepath) :=
              VideoRecorder.stop_recording (video_recorder m) (files w) in
            (audio_recorder m, v, fs, filepath)
        end in
      let m' := {| save_dir := save_dir m; audio_recorder := a;
                   video_recorder := v;
                   current_mode := None; is_active := is_active m;
                   on_recording_start := on_recording_start m;
                   on_recording_stop := on_recording_stop m |} in
      (m', {| files := fs; trace := notify_stop m' mode filepath (trace w) |},
       filepath)
  end.

Definition is_recording (m : t) : bool :=
  match current_mode m with
  | Some _ => true
  | None => false
  end.

Definition get_recording_mode (m : t) : option Mode := current_mode m.

(** [_on_voice_command]; the command is the string [_match_command] gave. *)
Definition _on_voice_command (PYAUDIO_AVAILABLE : bool)
    (mp4v_opens : nat * nat -> bool) (now now_audio : string)
    (command : string) (m : t) (w : World) : t * World :=
  if String.eqb command "voice_memo"
  then fst (start_voice_memo PYAUDIO_AVAILABLE now m w)
  else if String.eqb command "video_memo"
  then fst (start_video_memo PYAUDIO_AVAILABLE mp4v_opens now now_audio None
              m w)
  else if String.eqb command "stop"
  then fst (stop_recording m w)
  else (m, w).

(** The capture threads between two calls of the caller: the voice
    recorder's loop and the loop of the video recorder's companion; a
    loop whose recorder is not recording does nothing. *)
Definition capture (reads : list AudioRecorder.read) (m : t) : t :=
  {| save_dir := save_dir m;
     audio_recorder := AudioRecorder._record_loop reads (audio_recorder m);
     video_recorder := VideoRecorder.audio_loop reads (video_recorder m);
     current_mode := current_mode m; is_active := is_active m;
     on_recording_start := on_recording_start m;
     on_recording_stop := on_recording_stop m |}.

(** [start] and [stop]; the recogniser object [self.voice_recognizer] is
    carried beside the record. *)
Definition start (SPEECH_RECOGNITION_AVAILABLE : bool)
    (r : VoiceRecognizer.t) (m : t) : VoiceRecognizer.t * t :=
  (VoiceRecognizer.start_listening SPEECH_RECOGNITION_AVAILABLE r,
   {| save_dir := save_dir m; audio_recorder := audio_recorder m;
      video_recorder := video_recorder m; current_mode := current_mode m;
      is_active := true;
      on_recording_start := on_recording_start m;
      on_recording_stop := on_recording_stop m |}).

Definition stop (r : VoiceRecognizer.t) (m : t) (w : World)
    : VoiceRecognizer.t * t * World :=
  let m1 := {| save_dir := save_dir m; audio_recorder := audio_recorder m;
               video_recorder := video_recorder m;
               current_mode := current_mode m; is_active := false;
               on_recording_start := on_recording_start m;
               on_recording_stop := on_recording_stop m |} in
  let '(m2, w2, _) := stop_recording m1 w in
  (VoiceRecognizer.stop_listening r, m2, w2).

(** The callback [__init__] hands to the recogniser is the bound method
    [self._on_voice_command]; it reads the clock when it runs. *)
Definition voice_callback (PYAUDIO_AVAILABLE : bool)
    (mp4v_opens : nat * nat -> bool) (now now_audio : string)
    : option (string -> t * World -> t * World) :=
  Some (fun command '(m, w) =>
          _on_voice_command PYAUDIO_AVAILABLE mp4v_opens now now_audio
            command m w).

End SmartMirrorMemo.

(** ** [datetime] *)

Record datetime := {
  year : nat; month : nat; day : nat;
  hour : nat; minute : nat; second : nat; microsecond : nat
}.

#[global] Instance datetime_eq_dec : EqDecision datetime.
Proof. solve_decision. Defined.

Module Datetime.

Definition fields (d : datetime) : list nat :=
  [year d; month d; day d; hour d; minute d; second d; microsecond d].

(** Field by field, most significant first. *)
Fixpoint lex_ltb (a b : list nat) : bool :=
  match a, b with
  | [], [] => false
  | [], _ :: _ => true
  | _ :: _, [] => false
  | x :: a', y :: b' => (x <? y)%nat || ((x =? y)%nat && lex_ltb a' b')
  end.

(** [a < b] on naive datetimes. *)
Definition ltb (a b : datetime) : bool := lex_ltb (fields a) (fields b).

(** [a >= b] *)
Definition geb (a b : datetime) : bool := negb (ltb a b).

Definition is_leap (y : nat) : bool :=
  ((y mod 4 =? 0) && negb (y mod 100 =? 0) || (y mod 400 =? 0))%nat.

Definition days_in_month (y m : nat) : nat :=
  match m with
  | 2 => if is_leap y then 29 else 28
  | 4 | 6 | 9 | 11 => 30
  | _ => 31
  end.

(** The range checks of the [datetime] constructor ([ValueError]); the
    upper bounds on the year and the microsecond hold for every value the
    format below can produce (four digits, no fraction). *)
Definition valid (d : datetime) : bool :=
  ((1 <=? year d) && (1 <=? month d) && (month d <=? 12)
   && (1 <=? day d) && (day d <=? days_in_month (year d) (month d))
   && (hour d <=? 23) && (minute d <=? 59) && (second d <=? 59))%nat.

(** *** [datetime.strptime(s, "%Y%m%d_%H%M%S")]

    The format is compiled to the regular expression
    [(\d\d\d\d)(1[0-2]|0[1-9]|[1-9])(3[01]|[12]\d|0[1-9]|[1-9]| [1-9])_(2[0-3]|[0-1]\d|\d)([0-5]\d|\d)(6[0-1]|[0-5]\d|\d)];
    a parser returns its matches in the order the backtracking matcher
    tries them.  Digits are the ASCII digits, the ones [strftime]
    writes; decimal digits of other scripts, which Python's [\d] and
    [int] also take, are outside the model. *)

Definition parser (A : Type) := string -> list (A * string).

Definition digit (c : Ascii.ascii) : option nat :=
  let n := Ascii.nat_of_ascii c in
  if (48 <=? n)%nat && (n <=? 57)%nat then Some (n - 48) else None.

(** Two digits [x y] accepted by [ok]. *)
Definition two (ok : nat -> nat -> bool) : parser nat := fun s =>
  match s with
  | String a (String b rest) =>
      match digit a, digit b with
      | Some x, Some y => if ok x y then [(10 * x + y, rest)] else []
      | _, _ => []
      end
  | _ => []
  end.

(** One digit accepted by [ok]. *)
Definition one (ok : nat -> bool) : parser nat := fun s =>
  match s with
  | String a rest =>
      match digit a with
      | Some x => if ok x then [(x, rest)] else []
      | None => []
      end
  | _ => []
  end.

Definition lit (c : Ascii.ascii) : parser unit := fun s =>
  match s with
  | String a rest => if Ascii.eqb a c then [(tt, rest)] else []
  | _ => []
  end.

Definition alt {A} (p q : parser A) : parser A := fun s => (p s ++ q s)%list.

Definition bind {A B} (p : parser A) (k : A -> parser B) : parser B := fun s =>
  flat_map (fun '(a, rest) => k a rest) (p s).

Definition ret {A} (a : A) : parser A := fun s => [(a, s)].

Definition any2 : nat -> nat -> bool := fun _ _ => true.

Definition re_Y : parser nat :=
  bind (two any2) (fun hi => bind (two any2) (fun lo => ret (100 * hi + lo))).

Definition re_m : parser nat :=
  alt (two (fun x y => (x =? 1) && (y <=? 2))%nat)
 (alt (two (fun x y => (x =? 0) && (1 <=? y))%nat)
      (one (fun x => (1 <=? x)%nat))).

Definition re_d : parser nat :=
  alt (two (fun x y => (x =? 3) && (y <=? 1))%nat)
 (alt (two (fun x y => (1 <=? x) && (x <=? 2))%nat)
 (alt (two (fun x y => (x =? 0) && (1 <=? y))%nat)
 (alt (one (fun x => (1 <=? x)%nat))
      (bind (lit " "%char) (fun _ => one (fun x => (1 <=? x)%nat)))))).

Definition re_H : parser nat :=
  alt (two (fun x y => (x =? 2) && (y <=? 3))%nat)
 (alt (two (fun x y => (x <=? 1)%nat))
      (one (fun _ => true))).

Definition re_M : parser nat :=
  alt (two (fun x y => (x <=? 5)%nat)) (one (fun _ => true)).

Definition re_S : parser nat :=
  alt (two (fun x y => (x =? 6) && (y <=? 1))%nat)
 (alt (two (fun x y => (x <=? 5)%nat))
      (one (fun _ => true))).

Definition format_regex : parser datetime :=
  bind re_Y (fun Y => bind re_m (fun m => bind re_d (fun d =>
  bind (lit "_"%char) (fun _ =>
  bind re_H (fun H => bind re_M (fun M => bind re_S (fun S =>
  ret {| year := Y; month := m; day := d; hour := H; minute := M;
         second := S; microsecond := 0 |}))))))).

(** [None] stands for [ValueError]: no match, unconverted data after the
    first match, or fields the constructor rejects. *)
Definition strptime (s : string) : option datetime :=
  match format_regex s with
  | (d, EmptyString) :: _ => if valid d then Some d else None
  | _ => None
  end.

(** *** [d.strftime("%Y%m%d_%H%M%S")]

    Each field is written in decimal, zero padded to two digits, the year
    to four; this is what every platform prints for the years 1000 to
    9999. *)

Definition digit_char (k : nat) : Ascii.ascii := Ascii.ascii_of_nat (48 + k).

Definition pad2 (n : nat) : string :=
  String (digit_char (n / 10)) (String (digit_char (n mod 10)) EmptyString).

Definition date8 (d : datetime) : string :=
  pad2 (year d / 100) +:+ pad2 (year d mod 100) +:+ pad2 (month d)
  +:+ pad2 (day d).

Definition time6 (d : datetime) : string :=
  pad2 (hour d) +:+ pad2 (minute d) +:+ pad2 (second d).

Definition strftime (d : datetime) : string := date8 d +:+ "_" +:+ time6 d.

End Datetime.

(** ** [class MemoManager] *)

Module MemoManager.

(** What the scan learns about one name of [os.listdir(memo_dir)]:
    [os.path.isfile], [datetime.fromtimestamp(os.path.getmtime(...))] and
    [os.path.getsize] of the joined path. *)
Record DirEntry := {
  name : string;
  isfile : bool;
  mtime : datetime;
  getsize : nat
}.

(** One [dict] of the result. *)
Record Memo := {
  filename : string;
  filepath : string;
  type : Mode;
  timestamp : datetime;
  size : nat
}.

(** The [if]/[elif] on the name's prefix and extension. *)
Definition memo_type_of (filename : string) : option Mode :=
  if Str.startswith filename "voice_memo" && Str.endswith filename ".wav"
  then Some voice
  else if Str.startswith filename "video_memo" && Str.endswith filename ".mp4"
  then Some video
  else None.

(** The [try] block: [None] stands for [IndexError] or [ValueError]. *)
Definition timestamp_of (filename : string) : option datetime :=
  let parts := Str.split "_"%char filename in
  match parts !! 2%nat, parts !! 3%nat with
  | Some date, Some rest =>
      match Str.split "."%char rest with
      | time :: _ => Datetime.strptime (date +:+ "_" +:+ time)
      | [] => None
      end
  | _, _ => None
  end.

(** The body of the [for filename in os.listdir(...)] loop. *)
Definition scan_entry (memo_dir : string) (e : DirEntry) : option Memo :=
  let filepath := path_join memo_dir (name e) in
  if negb (isfile e) then None
  else if Str.contains "_audio.wav" (name e) then None
  else
    match memo_type_of (name e) with
    | None => None
    | Some memo_type =>
        let timestamp :=
          match timestamp_of (name e) with
          | Some t => t
          | None => mtime e
          end in
        Some {| filename := name e; filepath := filepath; type := memo_type;
                timestamp := timestamp; size := getsize e |}
    end.

(** [memos.sort(key=lambda x: x["timestamp"], reverse=True)]: the sort is
    stable, so it is determined by the keys; written as an insertion sort
    that keeps records with equal keys in their order of arrival. *)
Fixpoint insert_desc (x : Memo) (l : list Memo) : list Memo :=
  match l with
  | [] => [x]
  | y :: l' =>
      if Datetime.ltb (timestamp x) (timestamp y)
      then y :: insert_desc x l'
      else x :: y :: l'
  end.

Definition sort_desc (l : list Memo) : list Memo := foldr insert_desc [] l.

(** [dir] is [None] when [memo_dir] does not exist, else the entries in
    the order [os.listdir] returns them. *)
Definition get_all_memos (memo_dir : string) (dir : option (list DirEntry))
    : list Memo :=
  match dir with
  | None => []
  | Some listing => sort_desc (omap (scan_entry memo_dir) listing)
  end.

(** How a Python block ends: by returning a value or by an exception
    leaving it. *)
Inductive outcome (A : Type) :=
| Returned (a : A)
| Raised (e : OSError).
Arguments Returned {A} a.
Arguments Raised {A} e.

(** The [try] block of [delete_memo]: [Returned true] is its
    [return True], [Returned false] is falling out of the [if]. *)
Definition delete_try (filepath : string) (fs : FS) : outcome bool * FS :=
  if os.exists_ filepath fs then
    match os.remove filepath fs with
    | inl e => (Raised e, fs)
    | inr fs1 =>
        let audio_path := Str.replace filepath ".mp4" "_audio.wav" in
        if os.exists_ audio_path fs1 then
          match os.remove audio_path fs1 with
          | inl e => (Raised e, fs1)
          | inr fs2 => (Returned true, fs2)
          end
        else (Returned true, fs1)
    end
  else (Returned false, fs).

(** [except Exception] turns every exception into the final
    [return False]. *)
Definition delete_memo (filepath : string) (fs : FS) : outcome bool * FS :=
  match delete_try filepath fs with
  | (Returned b, fs') => (Returned b, fs')
  | (Raised _, fs') => (Returned false, fs')
  end.

Record Count := { total : nat; voice_count : nat; video_count : nat }.

Definition get_memo_count (memo_dir : string) (dir : option (list DirEntry))
    : Count :=
  let memos := get_all_memos memo_dir dir in
  {| total := length memos;
     voice_count := length (filter (fun m => type m = voice) memos);
     video_count := length (filter (fun m => type m = video) memos) |}.

End MemoManager.

(** ** [memo_demo.py] *)

Module memo_demo.

(** [recording_status["mode"]] as the two callbacks of [main] leave it. *)
Definition on_recording_start (mode : Mode) (status : option Mode)
    : option Mode := Some mode.

Definition on_recording_stop (mode : Mode) (filepath : option string)
    (status : option Mode) : option Mode := None.

(** The status after the calls of a trace, starting from [None]. *)
Definition recording_status (tr : list Event) : option Mode :=
  foldl (fun status e =>
           match e with
           | recording_start _ mode => on_recording_start mode status
           | recording_stop _ mode filepath =>
               on_recording_stop mode filepath status
           end) None tr.

(** What the main loop does next. *)
Inductive action := Continue | Quit | OpenPlayer.

(** The key handling of the main loop; [key] is [cv2.waitKey(1) & 0xFF]
    and the numbers are [ord('q')], [ord('Q')] and so on. *)
Definition handle_key (PYAUDIO_AVAILABLE : bool)
    (mp4v_opens : nat * nat -> bool) (now now_audio : string)
    (frame_width frame_height : nat) (key : nat)
    (m : SmartMirrorMemo.t) (w : World)
    : SmartMirrorMemo.t * World * action :=
  if (key =? 113)%nat || (key =? 81)%nat then (m, w, Quit)
  else if (key =? 118)%nat || (key =? 86)%nat then
    if negb (SmartMirrorMemo.is_recording m)
    then (fst (SmartMirrorMemo.start_voice_memo PYAUDIO_AVAILABLE now m w),
          Continue)
    else (m, w, Continue)
  else if (key =? 114)%nat || (key =? 82)%nat then
    if negb (SmartMirrorMemo.is_recording m)
    then (fst (SmartMirrorMemo.start_video_memo PYAUDIO_AVAILABLE mp4v_opens
                 now now_audio (Some (frame_width, frame_height)) m w),
          Continue)
    else (m, w, Continue)
  else if (key =? 115)%nat || (key =? 83)%nat then
    if SmartMirrorMemo.is_recording m
    then (fst (SmartMirrorMemo.stop_recording m w), Continue)
    else (m, w, Continue)
  else if (key =? 112)%nat || (key =? 80)%nat then (m, w, OpenPlayer)
  else (m, w, Continue).

(** [if memo.get_recording_mode() == "video": memo.write_video_frame(frame)] *)
Definition feed_frame (frame : Frame) (m : SmartMirrorMemo.t) (w : World)
    : cv2_error + World :=
  match SmartMirrorMemo.get_recording_mode m with
  | Some video => SmartMirrorMemo.write_video_frame frame m w
  | _ => inr w
  end.

End memo_demo.

(** ** The running system

    The recogniser, the coordinator and the world, driven by the calls
    that reach them from the caller's thread, the capture threads and the
    listening threads, in the order they take effect.  Each call runs to
    its end before the next one starts, as the calls of one thread do;
    the module has no lock, so a command delivered by a listening thread
    is such a call only when it does not overlap a call of the caller. *)

Module Run.

(** [turns] counts the turns of listening threads that have passed the
    loop test and are waiting for speech or for the recognition service. *)
Record system := {
  recognizer : VoiceRecognizer.t;
  memo : SmartMirrorMemo.t;
  world : World;
  turns : nat
}.

Inductive call :=
| Start
| Stop
| StartVoiceMemo (now : string)
| StartVideoMemo (now now_audio : string) (frame_size : option (nat * nat))
| StopRecording
| WriteVideoFrame (frame : Frame)
| Captured (reads : list AudioRecorder.read)
| TurnBegins
| Listened (h : VoiceRecognizer.heard) (now now_audio : string)
| KeyPressed (key : nat) (now now_audio : string) (frame_width frame_height : nat)
| FrameFed (frame : Frame).

(** An error raised by [write_video_frame] reaches the caller and leaves
    the system as it was. *)
Definition step (PYAUDIO_AVAILABLE : bool) (mp4v_opens : nat * nat -> bool)
    (SPEECH_RECOGNITION_AVAILABLE : bool) (c : call) (s : system) : system :=
  let r := recognizer s in
  let m := memo s in
  let w := world s in
  let n := turns s in
  match c with
  | Start =>
      let '(r', m') := SmartMirrorMemo.start SPEECH_RECOGNITION_AVAILABLE r m in
      {| recognizer := r'; memo := m'; world := w; turns := n |}
  | Stop =>
      let '(r', m', w') := SmartMirrorMemo.stop r m w in
      {| recognizer := r'; memo := m'; world := w'; turns := n |}
  | StartVoiceMemo now =>
      let '(m', w', _) :=
        SmartMirrorMemo.start_voice_memo PYAUDIO_AVAILABLE now m w in
      {| recognizer := r; memo := m'; world := w'; turns := n |}
  | StartVideoMemo now now_audio frame_size =>
      let '(m', w', _) :=
        SmartMirrorMemo.start_video_memo PYAUDIO_AVAILABLE mp4v_opens now
          now_audio frame_size m w in
      {| recognizer := r; memo := m'; world := w'; turns := n |}
  | StopRecording =>
      let '(m', w', _) := SmartMirrorMemo.stop_recording m w in
      {| recognizer := r; memo := m'; world := w'; turns := n |}
  | WriteVideoFrame frame =>
      match SmartMirrorMemo.write_video_frame frame m w with
      | inr w' => {| recognizer := r; memo := m; world := w'; turns := n |}
      | inl _ => s
      end
  | Captured reads =>
      {| recognizer := r; memo := SmartMirrorMemo.capture reads m; world := w;
         turns := n |}
  | TurnBegins =>
      if VoiceRecognizer._listen_test r
      then {| recognizer := r; memo := m; world := w; turns := S n |}
      else s
  | Listened h now now_audio =>
      match n with
      | O => s
      | S n' =>
          let '(m', w') :=
            VoiceRecognizer._listen_turn
              (SmartMirrorMemo.voice_callback PYAUDIO_AVAILABLE mp4v_opens
                 now now_audio)
              h (m, w) in
          {| recognizer := r; memo := m'; world := w'; turns := n' |}
      end
  | KeyPressed key now now_audio frame_width frame_height =>
      let '(m', w', _) :=
        memo_demo.handle_key PYAUDIO_AVAILABLE mp4v_opens now now_audio
          frame_width frame_height key m w in
      {| recognizer := r; memo := m'; world := w'; turns := n |}
  | FrameFed frame =>
      match memo_demo.feed_frame frame m w with
      | inr w' => {| recognizer := r; memo := m; world := w'; turns := n |}
      | inl _ => s
      end
  end.

(** The calls of a run, first to last. *)
Definition run (PYAUDIO_AVAILABLE : bool) (mp4v_opens : nat * nat -> bool)
    (SPEECH_RECOGNITION_AVAILABLE : bool) (calls : list call) (s : system)
    : system :=
  foldl (fun s' c =>
           step PYAUDIO_AVAILABLE mp4v_opens SPEECH_RECOGNITION_AVAILABLE c s')
        s calls.

(** The system [SmartMirrorMemo(save_dir)] builds, with the callbacks the
    caller then assigns, over the files that are there. *)
Definition fresh (save_dir : string) (on_start on_stop : option Callback)
    (fs : FS) : system :=
  let m := SmartMirrorMemo.new save_dir in
  {| recognizer := VoiceRecognizer.new;
     memo := {| SmartMirrorMemo.save_dir := SmartMirrorMemo.save_dir m;
                SmartMirrorMemo.audio_recorder := SmartMirrorMemo.audio_recorder m;
                SmartMirrorMemo.video_recorder := SmartMirrorMemo.video_recorder m;
                SmartMirrorMemo.current_mode := SmartMirrorMemo.current_mode m;
                SmartMirrorMemo.is_active := SmartMirrorMemo.is_active m;
                SmartMirrorMemo.on_recording_start := on_start;
                SmartMirrorMemo.on_recording_stop := on_stop |};
     world := {| files := fs; trace := [] |};
     turns := 0 |}.

End Run.

(** * Vocabulary of the statements *)

(** [k] occurs in [t] at some position. *)
Definition occurs (k t : string) : Prop :=
  exists pre post, t = pre +:+ k +:+ post.

(** Some keyword filed under [cmd_type] in [COMMANDS] occurs in [t]. *)
Definition mentions (cmd_type t : string) : Prop :=
  exists keywords keyword,
    In (cmd_type, keywords) VoiceRecognizer.COMMANDS /\
    In keyword keywords /\ occurs keyword t.

(** The path the capture component of [mode] hands back when stopped. *)
Definition delegated_stop (mode : Mode) (m : SmartMirrorMemo.t) (w : World)
    : option string :=
  match mode with
  | voice => snd (AudioRecorder.stop_recording
                    (SmartMirrorMemo.audio_recorder m) (files w))
  | video => snd (VideoRecorder.stop_recording
                    (SmartMirrorMemo.video_recorder m) (files w))
  end.

(** The calls [stop_recording] makes into the presentation layer. *)
Definition stop_calls (m : SmartMirrorMemo.t) (mode : Mode)
    (filepath : option string) : list Event :=
  match SmartMirrorMemo.on_recording_stop m with
  | Some f => [recording_stop f mode filepath]
  | None => []
  end.

(** The calls an accepted start makes into the presentation layer. *)
Definition start_calls (m : SmartMirrorMemo.t) (mode : Mode) : list Event :=
  match SmartMirrorMemo.on_recording_start m with
  | Some f => [recording_start f mode]
  | None => []
  end.

(** The file system takes a write to [p]: no directory in the way and
    no refusal. *)
Definition accepts_write (fs : FS) (p : string) : Prop :=
  nodes fs !! p <> Some Directory /\ p ∉ denied fs.

(** [os.remove] can unlink [p]: a regular file the system lets go of. *)
Definition removable (fs : FS) (p : string) : Prop :=
  (exists c, nodes fs !! p = Some (File c)) /\ p ∉ denied fs.




(** The files after one call of [write_frame], whether it returned or
    raised. *)
Definition after_write_frame (frame : Frame) (v : VideoRecorder.t) (fs : FS)
    : FS :=
  match VideoRecorder.write_frame frame v fs with
  | inr fs' => fs'
  | inl _ => fs
  end.

(** The frames handed to [write_frame] one after the other. *)
Definition write_frames (frames : list Frame) (v : VideoRecorder.t) (fs : FS)
    : FS :=
  foldl (fun fs' frame => after_write_frame frame v fs') fs frames.

(** [filename] follows the naming pattern of a memo of the given kind. *)
Definition named_as (kind : Mode) (filename : string) : Prop :=
  match kind with
  | voice => (exists rest, filename = "voice_memo" +:+ rest) /\
             (exists stem, filename = stem +:+ ".wav")
  | video => (exists rest, filename = "video_memo" +:+ rest) /\
             (exists stem, filename = stem +:+ ".mp4")
  end.

(** [x] may stand before [y] in a newest-first listing. *)
Definition not_older (x y : MemoManager.Memo) : Prop :=
  Datetime.geb (MemoManager.timestamp x) (MemoManager.timestamp y) = true.

(** ** Inputs of the examples *)

Definition no_files : FS := {| nodes := ∅; denied := ∅ |}.

(** An OpenCV build whose 'mp4v' writer opens for every frame size that
    is not empty. *)
Definition opens_non_empty (size : nat * nat) : bool :=
  negb (VideoRecorder.empty_size size).


(** An empty store that refuses writes to one video-memo path. *)
Definition locked_video : FS :=
  {| nodes := ∅; denied := {[ "memos/video_memo_20240101_120000.mp4" ]} |}.

Definition quiet_world : World := {| files := no_files; trace := [] |}.

(** A fresh coordinator with both callbacks registered. *)
Definition listening_memo : SmartMirrorMemo.t :=
  let m := SmartMirrorMemo.new "memos" in
  {| SmartMirrorMemo.save_dir := SmartMirrorMemo.save_dir m;
     SmartMirrorMemo.audio_recorder := SmartMirrorMemo.audio_recorder m;
     SmartMirrorMemo.video_recorder := SmartMirrorMemo.video_recorder m;
     SmartMirrorMemo.current_mode := None;
     SmartMirrorMemo.is_active := true;
     SmartMirrorMemo.on_recording_start := Some 1;
     SmartMirrorMemo.on_recording_stop := Some 2 |}.

Definition two_bytes : bytes := [Byte.x01; Byte.x02].

(** A directory with a video memo, its sidecar and a folder that
    [os.remove] cannot unlink. *)
Definition memo_files : FS :=
  {| nodes := <["memos/video_memo_20240101_120000.mp4" := File (Mp4 (640, 480) [])]>
              (<["memos/video_memo_20240101_120000_audio.wav" :=
                   File (Wav 1 2 44100 1 two_bytes)]>
              (<["memos/archive" := Directory]> ∅));
     denied := ∅ |}.

Definition video_name : string := "video_memo_20240101_120000.mp4".

Definition sidecar_name : string := "video_memo_20240101_120000_audio.wav".

Definition new_year_noon : datetime :=
  {| year := 2024; month := 1; day := 1; hour := 12; minute := 0;
     second := 0; microsecond := 0 |}.

(** The record expected for the video memo of the scenario. *)
Definition pair_record (memo_dir : string) (bytes_on_disk : nat)
    : MemoManager.Memo :=
  {| MemoManager.filename := video_name;
     MemoManager.filepath := path_join memo_dir video_name;
     MemoManager.type := video;
     MemoManager.timestamp := new_year_noon;
     MemoManager.size := bytes_on_disk |}.

(** A record named after the video memo of the scenario or its sidecar. *)
Definition of_pair (r : MemoManager.Memo) : Prop :=
  MemoManager.filename r = video_name \/ MemoManager.filename r = sidecar_name.

(** The scenario directory as [os.listdir] may return it: the sidecar
    first, then the video memo, a voice memo, a note and a folder. *)
Definition scenario_listing : list MemoManager.DirEntry :=
  [ {| MemoManager.name := sidecar_name; MemoManager.isfile := true;
       MemoManager.mtime := new_year_noon; MemoManager.getsize := 4 |};
    {| MemoManager.name := video_name; MemoManager.isfile := true;
       MemoManager.mtime := new_year_noon; MemoManager.getsize := 7 |};
    {| MemoManager.name := "voice_memo_20240102_080000.wav";
       MemoManager.isfile := true;
       MemoManager.mtime := new_year_noon; MemoManager.getsize := 9 |};
    {| MemoManager.name := "notes.txt"; MemoManager.isfile := true;
       MemoManager.mtime := new_year_noon; MemoManager.getsize := 1 |};
    {| MemoManager.name := "video_memo_archive.mp4"; MemoManager.isfile := false;
       MemoManager.mtime := new_year_noon; MemoManager.getsize := 0 |} ].

(** ** Vocabulary of the further properties *)

(** [c] is one of the characters of [s]. *)
Fixpoint has_char (c : Ascii.ascii) (s : string) : bool :=
  match s with
  | EmptyString => false
  | String x s' => Ascii.eqb x c || has_char c s'
  end.

(** How often [c] occurs in [s]. *)
Fixpoint count_char (c : Ascii.ascii) (s : string) : nat :=
  match s with
  | EmptyString => 0
  | String x s' => (if Ascii.eqb x c then 1 else 0) + count_char c s'
  end.

(** A reading of the clock: a valid date of a four-digit year. *)
Definition clock_reading (d : datetime) : Prop :=
  Datetime.valid d = true /\ 1000 <= year d < 100 * 100.

(** [d] cut to whole seconds. *)
Definition to_second (d : datetime) : datetime :=
  {| year := year d; month := month d; day := day d; hour := hour d;
     minute := minute d; second := second d; microsecond := 0 |}.

(** The file names the recorders make up at clock reading [d]. *)
Definition voice_memo_name (d : datetime) : string :=
  "voice_memo_" +:+ Datetime.strftime d +:+ ".wav".

Definition video_memo_name (d : datetime) : string :=
  "video_memo_" +:+ Datetime.strftime d +:+ ".mp4".

(** A regular file of the storage directory under the given name. *)
Definition file_entry (name : string) (mtime : datetime) (bytes_on_disk : nat)
    : MemoManager.DirEntry :=
  {| MemoManager.name := name; MemoManager.isfile := true;
     MemoManager.mtime := mtime; MemoManager.getsize := bytes_on_disk |}.

(** The record listed for a memo of the given kind made at [d]. *)
Definition stamped_record (memo_dir name : string) (kind : Mode)
    (d : datetime) (bytes_on_disk : nat) : MemoManager.Memo :=
  {| MemoManager.filename := name;
     MemoManager.filepath := path_join memo_dir name;
     MemoManager.type := kind;
     MemoManager.timestamp := to_second d;
     MemoManager.size := bytes_on_disk |}.

(** Noon of new year 2024 and a few microseconds. *)
Definition noon_sharp : datetime :=
  {| year := 2024; month := 1; day := 1; hour := 12; minute := 0;
     second := 0; microsecond := 250 |}.

(** The chunks a capture loop buffers from what the device delivers:
    those that come before the first error. *)
Fixpoint chunks_before_error (reads : list AudioRecorder.read) : list bytes :=
  match reads with
  | [] => []
  | AudioRecorder.Chunk data :: rest => data :: chunks_before_error rest
  | AudioRecorder.DeviceError :: _ => []
  end.

(** Some read ended in an error. *)
Definition has_error (reads : list AudioRecorder.read) : bool :=
  existsb (fun r => match r with
                    | AudioRecorder.DeviceError => true
                    | AudioRecorder.Chunk _ => false
                    end) reads.

(** The path of the voice memo started at clock string [now]. *)
Definition voice_path (save_dir now : string) : string :=
  path_join save_dir ("voice_memo_" +:+ now +:+ ".wav").

(** The path of the video memo started at clock string [now]. *)
Definition video_path (save_dir now : string) : string :=
  path_join save_dir ("video_memo_" +:+ now +:+ ".mp4").



(** A colour picture that is not empty, as a camera delivers it. *)
Definition colour_picture (frame : Frame) : Prop :=
  n_channels frame = 3 /\ 0 < fst (shape frame) /\ 0 < snd (shape frame).

(** A frame brought to the size (width, height): the frame itself when
    its dimensions agree, else the picture resampled. *)
Definition fit (size : nat * nat) (frame : Frame) : Frame :=
  if negb (snd (shape frame) =? fst size)%nat
     || negb (fst (shape frame) =? snd size)%nat
  then {| shape := (snd size, fst size); n_channels := n_channels frame;
          image := image frame |}
  else frame.

(** What reaches a video recorder during a session: a repeated start,
    a frame, or a turn of the companion's capture loop. *)
Inductive video_call :=
| AgainStart (now now_audio : string) (frame_size : option (nat * nat))
| WriteFrame (frame : Frame)
| CompanionReads (reads : list AudioRecorder.read).

Definition video_step (PYAUDIO_AVAILABLE : bool)
    (mp4v_opens : nat * nat -> bool) (c : video_call)
    (s : VideoRecorder.t * FS) : VideoRecorder.t * FS :=
  match c with
  | AgainStart now now_audio frame_size =>
      fst (VideoRecorder.start_recording PYAUDIO_AVAILABLE mp4v_opens now
             now_audio frame_size (fst s) (snd s))
  | WriteFrame frame => (fst s, after_write_frame frame (fst s) (snd s))
  | CompanionReads reads => (VideoRecorder.audio_loop reads (fst s), snd s)
  end.

(** The frames among the calls, in order. *)
Definition frames_of (calls : list video_call) : list Frame :=
  omap (fun c => match c with WriteFrame frame => Some frame | _ => None end)
       calls.

(** A whole video session: start on [v], the calls, stop. *)
Definition video_session (PYAUDIO_AVAILABLE : bool)
    (mp4v_opens : nat * nat -> bool) (now now_audio : string)
    (frame_size : option (nat * nat)) (calls : list video_call)
    (v : VideoRecorder.t) (fs : FS) : VideoRecorder.t * FS * option string :=
  let '(v1, fs1, _) :=
    VideoRecorder.start_recording PYAUDIO_AVAILABLE mp4v_opens now now_audio
      frame_size v fs in
  let '(v2, fs2) :=
    foldl (fun s c => video_step PYAUDIO_AVAILABLE mp4v_opens c s) (v1, fs1)
          calls in
  VideoRecorder.stop_recording v2 fs2.

(** The state of a recorder in a session on [file]: [o] tells whether
    its writer could open the container. *)
Definition writing (v : VideoRecorder.t) (file : string) (size : nat * nat)
    (o : bool) : Prop :=
  VideoRecorder.is_recording v = true /\
  VideoRecorder._current_file v = Some file /\
  VideoRecorder._video_writer v
    = Some {| VideoRecorder.target := file; VideoRecorder.writer_size := size;
              VideoRecorder.opened := o |} /\
  VideoRecorder.frame_size v = size.

(** The companion recorder, as long as it records, aims at [path]. *)
Definition companion_aims_at (v : VideoRecorder.t) (path : string) : Prop :=
  forall a, VideoRecorder._audio_recorder v = Some a ->
            AudioRecorder.is_recording a = true ->
            AudioRecorder._current_file a = Some path.

(** The recorders agree with the mode of the coordinator: the voice
    recorder records only in voice mode, the video recorder records
    exactly in video mode, and a video recorder at rest has neither a
    writer nor a companion. *)
Definition consistent (m : SmartMirrorMemo.t) : Prop :=
  (AudioRecorder.is_recording (SmartMirrorMemo.audio_recorder m) = true ->
   SmartMirrorMemo.current_mode m = Some voice) /\
  (VideoRecorder.is_recording (SmartMirrorMemo.video_recorder m) = true <->
   SmartMirrorMemo.current_mode m = Some video) /\
  (VideoRecorder.is_recording (SmartMirrorMemo.video_recorder m) = false ->
   VideoRecorder._audio_recorder (SmartMirrorMemo.video_recorder m) = None /\
   VideoRecorder._video_writer (SmartMirrorMemo.video_recorder m) = None).

(** What a call may do to the mode and to the trace of callbacks: leave
    both, open a session with the start callback, or close the session
    with the stop callback.  The registered callbacks stay as they are. *)
Definition moves (m : SmartMirrorMemo.t) (w : World)
    (m' : SmartMirrorMemo.t) (w' : World) : Prop :=
  SmartMirrorMemo.on_recording_start m' = SmartMirrorMemo.on_recording_start m /\
  SmartMirrorMemo.on_recording_stop m' = SmartMirrorMemo.on_recording_stop m /\
  ((SmartMirrorMemo.current_mode m' = SmartMirrorMemo.current_mode m /\
    trace w' = trace w) \/
   (SmartMirrorMemo.current_mode m = None /\
    exists mode, SmartMirrorMemo.current_mode m' = Some mode /\
                 trace w' = (trace w ++ start_calls m mode)%list) \/
   (exists mode filepath,
      SmartMirrorMemo.current_mode m = Some mode /\
      SmartMirrorMemo.current_mode m' = None /\
      trace w' = (trace w ++ stop_calls m mode filepath)%list)).

(** The system once a turn of a listening thread has ended. *)
Definition turn_over (s : Run.system) : Run.system :=
  {| Run.recognizer := Run.recognizer s; Run.memo := Run.memo s;
     Run.world := Run.world s; Run.turns := Nat.pred (Run.turns s) |}.

(** No audio recorder of the coordinator is recording: neither the voice
    recorder nor the companion of the video recorder. *)
Definition silent (m : SmartMirrorMemo.t) : Prop :=
  AudioRecorder.is_recording (SmartMirrorMemo.audio_recorder m) = false /\
  forall a,
    VideoRecorder._audio_recorder (SmartMirrorMemo.video_recorder m) = Some a ->
    AudioRecorder.is_recording a = false.

(** Every audio container of [fs'] was already there, unchanged, in [fs]. *)
Definition no_new_audio (fs fs' : FS) : Prop :=
  forall p nchannels sampwidth framerate nframes data,
    nodes fs' !! p = Some (File (Wav nchannels sampwidth framerate nframes data)) ->
    nodes fs !! p = Some (File (Wav nchannels sampwidth framerate nframes data)).

(** A store with one voice memo. *)
Definition voice_shelf : FS :=
  {| nodes := <["memos/voice_memo_20240101_120000.wav" :=
                  File (Wav 1 2 44100 1 two_bytes)]> ∅;
     denied := ∅ |}.

(** A video memo and its sidecar, the sidecar held by the system. *)
Definition guarded_pair : FS :=
  {| nodes := <["memos/video_memo_20240101_120000.mp4" := File (Mp4 (640, 480) [])]>
              (<["memos/video_memo_20240101_120000_audio.wav" :=
                   File (Wav 1 2 44100 1 two_bytes)]> ∅);
     denied := {[ "memos/video_memo_20240101_120000_audio.wav" ]} |}.

(** A frame of the configured size and a smaller one. *)
Definition full_frame : Frame :=
  {| shape := (480, 640); n_channels := 3; image := 1 |}.

Definition small_frame : Frame :=
  {| shape := (100, 100); n_channels := 3; image := 2 |}.

(** What reaches the video recorder in the example session. *)
Definition busy_session : list video_call :=
  [ WriteFrame full_frame;
    CompanionReads [AudioRecorder.Chunk two_bytes];
    AgainStart "20240101_120007" "20240101_120007" None;
    WriteFrame small_frame ].

(** * Properties *)

(** ** Strings *)

Lemma sapp_cons (c : Ascii.ascii) (s t : string) :
  String c s +:+ t = String c (s +:+ t).
Proof. reflexivity. Qed.

Lemma sapp_nil_l (t : string) : EmptyString +:+ t = t.
Proof. reflexivity. Qed.

Create Rewrite HintDb sapp.
#[local] Hint Rewrite sapp_cons sapp_nil_l : sapp.

Ltac sapp := autorewrite with sapp in *.

Lemma sapp_nil_r (s : string) : s +:+ EmptyString = s.
Proof. induction s as [|c s IH]; sapp; [reflexivity | now rewrite IH]. Qed.

Lemma sapp_assoc (a b c : string) : (a +:+ b) +:+ c = a +:+ b +:+ c.
Proof. induction a as [|x a IH]; sapp; [reflexivity | now rewrite IH]. Qed.

Lemma startswith_spec (s p : string) :
  Str.startswith s p = true <-> exists rest, s = p +:+ rest.
Proof.
  revert s. induction p as [|a p IH]; intros s; simpl.
  - split; [intros _; now exists s | reflexivity].
  - destruct s as [|b s].
    + split; [discriminate | intros [r Hr]; sapp; discriminate].
    + destruct (Ascii.eqb_spec a b) as [->|Hne].
      * rewrite IH. split; intros [r Hr]; exists r; sapp; congruence.
      * split; [discriminate | intros [r Hr]; sapp; congruence].
Qed.

Lemma contains_spec (k t : string) : Str.contains k t = true <-> occurs k t.
Proof.
  induction t as [|c t IH]; simpl.
  - rewrite orb_false_r, startswith_spec. split.
    + intros [r Hr]. now exists EmptyString, r.
    + intros (pre & post & H). destruct pre; sapp; [now exists post | discriminate].
  - rewrite orb_true_iff, startswith_spec, IH. split.
    + intros [[r Hr] | (pre & post & H)].
      * now exists EmptyString, r.
      * exists (String c pre), post. sapp. now rewrite H.
    + intros (pre & post & H). destruct pre as [|x pre]; sapp.
      * left. now exists post.
      * right. exists pre, post. congruence.
Qed.

Lemma endswith_spec (s p : string) :
  Str.endswith s p = true <-> exists pre, s = pre +:+ p.
Proof.
  induction s as [|c s IH].
  - change (Str.endswith EmptyString p) with (String.eqb EmptyString p || false).
    rewrite orb_false_r, String.eqb_eq. split.
    + intros <-. now exists EmptyString.
    + intros [pre H]. destruct pre; sapp; [assumption | discriminate].
  - change (Str.endswith (String c s) p)
      with (String.eqb (String c s) p || Str.endswith s p).
    rewrite orb_true_iff, String.eqb_eq, IH. split.
    + intros [<- | [pre ->]]; [now exists EmptyString | now exists (String c pre)].
    + intros [pre H]. destruct pre as [|x pre]; sapp.
      * now left.
      * right. exists pre. congruence.
Qed.

Lemma endswith_contains (s p : string) :
  Str.endswith s p = true -> Str.contains p s = true.
Proof.
  rewrite endswith_spec, contains_spec. intros [pre ->].
  exists pre, EmptyString. now rewrite sapp_nil_r.
Qed.

Lemma lower_char_idem (c : Ascii.ascii) :
  Str.lower_char (Str.lower_char c) = Str.lower_char c.
Proof. destruct c as [[] [] [] [] [] [] [] []]; reflexivity. Qed.

Lemma lower_idem (s : string) : Str.lower (Str.lower s) = Str.lower s.
Proof.
  induction s as [|c s IH]; simpl; [reflexivity|].
  now rewrite lower_char_idem, IH.
Qed.

(** ** The command matcher *)

Section Matcher.

Import VoiceRecognizer.

Lemma any_keyword_spec (keywords : list string) (t : string) :
  any_keyword keywords t = true <->
  exists keyword, In keyword keywords /\ occurs keyword t.
Proof.
  unfold any_keyword. rewrite existsb_exists.
  split; intros (k & Hin & Hk); exists k; split; auto;
    now apply contains_spec.
Qed.

Lemma first_command_some (commands : list (string * list string))
    (t cmd : string) :
  first_command commands t = Some cmd <->
  exists before keywords after,
    commands = (before ++ (cmd, keywords) :: after)%list /\
    any_keyword keywords t = true /\
    Forall (fun entry => any_keyword (snd entry) t = false) before.
Proof.
  induction commands as [|[c kws] rest IH]; simpl.
  - split; [discriminate | intros (b & k & a & H & _)].
    destruct b; discriminate.
  - destruct (any_keyword kws t) eqn:Hany.
    + split.
      * intros [= <-]. exists [], kws, rest. auto.
      * intros (b & k & a & H & Hk & Hb). destruct b as [|e b]; simpl in H.
        -- congruence.
        -- inversion H; subst e. inversion Hb; subst. simpl in *. congruence.
    + rewrite IH. split.
      * intros (b & k & a & -> & Hk & Hb). exists ((c, kws) :: b), k, a.
        repeat split; auto.
      * intros (b & k & a & H & Hk & Hb). destruct b as [|e b]; simpl in H.
        -- inversion H; subst. congruence.
        -- inversion H; subst. inversion Hb; subst. eauto 6.
Qed.

Lemma first_command_none (commands : list (string * list string)) (t : string) :
  first_command commands t = None <->
  Forall (fun entry => any_keyword (snd entry) t = false) commands.
Proof.
  induction commands as [|[c kws] rest IH]; simpl.
  - split; auto.
  - destruct (any_keyword kws t) eqn:Hany.
    + split; [discriminate | intros H; inversion H; subst; simpl in *; congruence].
    + rewrite IH. split; [intros H; constructor; auto | intros H; now inversion H].
Qed.

Lemma mentions_any (cmd_type t : string) :
  mentions cmd_type t <->
  exists keywords, In (cmd_type, keywords) COMMANDS /\ any_keyword keywords t = true.
Proof.
  unfold mentions. split.
  - intros (kws & k & Hin & Hk & Ho). exists kws. split; [assumption|].
    apply any_keyword_spec. eauto.
  - intros (kws & Hin & Hany). apply any_keyword_spec in Hany as (k & Hk & Ho).
    eauto.
Qed.

(** C8: the matcher lower-cases the text and answers with the first of
    voice_memo, video_memo, stop (in this order) one of whose keywords
    occurs in the lower-cased text, and with [None] when no keyword of any
    set occurs; the answer depends on the lower-cased text only. *)
Theorem match_command_priority (text : string) :
  let t := Str.lower text in
  (_match_command text = Some "voice_memo" <-> mentions "voice_memo" t) /\
  (_match_command text = Some "video_memo" <->
     ~ mentions "voice_memo" t /\ mentions "video_memo" t) /\
  (_match_command text = Some "stop" <->
     ~ mentions "voice_memo" t /\ ~ mentions "video_memo" t /\ mentions "stop" t) /\
  (_match_command text = None <-> forall cmd_type, ~ mentions cmd_type t) /\
  _match_command (Str.lower text) = _match_command text.
Proof.
  intros t. unfold _match_command. rewrite lower_idem. fold t.
  pose proof (fun c => mentions_any c t) as Hm.
  unfold COMMANDS in *.
  match goal with
  | |- context [first_command [(_, ?a); (_, ?b); (_, ?c)] _] =>
      set (k1 := a) in *; set (k2 := b) in *; set (k3 := c) in *
  end.
  cbn [first_command]. simpl In in Hm.
  assert (H1 : mentions "voice_memo" t <-> any_keyword k1 t = true).
  { rewrite Hm. split; [intros (k & [H|[H|[H|[]]]] & Hk); congruence | eauto]. }
  assert (H2 : mentions "video_memo" t <-> any_keyword k2 t = true).
  { rewrite Hm. split; [intros (k & [H|[H|[H|[]]]] & Hk); congruence | eauto]. }
  assert (H3 : mentions "stop" t <-> any_keyword k3 t = true).
  { rewrite Hm. split; [intros (k & [H|[H|[H|[]]]] & Hk); congruence | eauto 6]. }
  assert (H0 : (forall c, ~ mentions c t) <->
               any_keyword k1 t = false /\ any_keyword k2 t = false /\
               any_keyword k3 t = false).
  { split.
    - intros Hn. pose proof (Hn "voice_memo"). pose proof (Hn "video_memo").
      pose proof (Hn "stop"). rewrite H1, H2, H3 in *.
      repeat split; apply not_true_is_false; assumption.
    - intros (E1 & E2 & E3) c. rewrite Hm.
      intros (k & [H|[H|[H|[]]]] & Hk); congruence. }
  rewrite H0, H1, H2, H3.
  destruct (any_keyword k1 t), (any_keyword k2 t), (any_keyword k3 t);
    intuition congruence.
Qed.

Lemma match_command_priority_witness :
  ~ mentions "voice_memo" (Str.lower "Stop the VIDEO MEMO") /\
  mentions "video_memo" (Str.lower "Stop the VIDEO MEMO").
Proof.
  apply (proj1 (proj1 (proj2 (match_command_priority "Stop the VIDEO MEMO")))).
  vm_compute. reflexivity.
Defined.

End Matcher.

Example match_voice_before_video :
  VoiceRecognizer._match_command "영상 메모 말고 Voice Memo" = Some "voice_memo".
Proof. vm_compute. reflexivity. Qed.

Example match_nothing : VoiceRecognizer._match_command "hello mirror" = None.
Proof. vm_compute. reflexivity. Qed.

(** ** The coordinator *)

Section Coordinator.

Import SmartMirrorMemo.

Variable PYAUDIO_AVAILABLE : bool.
Variable mp4v_opens : nat * nat -> bool.

(** C4: while a session is active, both start calls return [None] and
    leave the coordinator, both recorders (path and time stamp of the
    running capture included), the files and the trace of callbacks as
    they were. *)
Theorem start_while_recording_is_noop (now now_audio : string)
    (frame_size : option (nat * nat)) (m : t) (w : World) (mode : Mode) :
  current_mode m = Some mode ->
  start_voice_memo PYAUDIO_AVAILABLE now m w = (m, w, None) /\
  start_video_memo PYAUDIO_AVAILABLE mp4v_opens now now_audio frame_size m w
  = (m, w, None).
Proof.
  intros Hmode. unfold start_voice_memo, start_video_memo.
  rewrite Hmode. split; reflexivity.
Qed.

(** C5: [stop_recording] on an idle coordinator returns [None], calls
    nothing and changes nothing; this is what the second of two
    consecutive stops meets, whatever the state before the first. *)
Theorem stop_when_idle (m : t) (w : World) :
  (current_mode m = None -> stop_recording m w = (m, w, None)) /\
  (let '(m1, w1, _) := stop_recording m w in
   stop_recording m1 w1 = (m1, w1, None)).
Proof.
  split.
  - intros Hidle. unfold stop_recording. now rewrite Hidle.
  - unfold stop_recording at 1. destruct (current_mode m) as [mode|] eqn:Hmode.
    + destruct mode;
        [destruct (AudioRecorder.stop_recording _ _) as [[a fs] r]
        |destruct (VideoRecorder.stop_recording _ _) as [[v fs] r]];
        reflexivity.
    + unfold stop_recording. now rewrite Hmode.
Qed.

(** C3: stopping an active session always clears the mode, returns the
    path the active capture component handed back (possibly [None]), and
    calls the registered stop callback exactly once, with the mode read
    before it was cleared and with that path. *)
Theorem stop_recording_active (m : t) (w : World) (mode : Mode) :
  current_mode m = Some mode ->
  let '(m', w', filepath) := stop_recording m w in
  current_mode m' = None /\
  is_recording m' = false /\
  filepath = delegated_stop mode m w /\
  trace w' = (trace w ++ stop_calls m mode filepath)%list /\
  (forall f, on_recording_stop m = Some f ->
     trace w' = (trace w ++ [recording_stop f mode filepath])%list).
Proof.
  intros Hmode. unfold stop_recording, delegated_stop, stop_calls.
  rewrite Hmode.
  destruct mode;
    [destruct (AudioRecorder.stop_recording _ _) as [[a fs] r]
    |destruct (VideoRecorder.stop_recording _ _) as [[v fs] r]];
    cbn; unfold notify_stop; cbn;
    (destruct (on_recording_stop m) as [f|];
     [repeat split; auto; intros ? [= <-]; reflexivity
     |repeat split; auto using app_nil_r; discriminate]).
Qed.


End Coordinator.

Lemma start_while_recording_is_noop_witness :
  let m := fst (fst (SmartMirrorMemo.start_voice_memo true "20240101_120000"
                       listening_memo quiet_world)) in
  let w := snd (fst (SmartMirrorMemo.start_voice_memo true "20240101_120000"
                       listening_memo quiet_world)) in
  SmartMirrorMemo.current_mode m = Some voice /\
  SmartMirrorMemo.start_voice_memo true "20240101_120005" m w = (m, w, None) /\
  SmartMirrorMemo.start_video_memo true opens_non_empty "20240101_120005"
    "20240101_120005" None m w = (m, w, None).
Proof.
  intros m w. split; [reflexivity|].
  apply (start_while_recording_is_noop true opens_non_empty "20240101_120005"
           "20240101_120005" None m w voice).
  reflexivity.
Defined.

Lemma stop_when_idle_witness :
  SmartMirrorMemo.stop_recording listening_memo quiet_world
  = (listening_memo, quiet_world, None).
Proof.
  apply (proj1 (stop_when_idle listening_memo quiet_world)). reflexivity.
Defined.

Lemma stop_recording_active_witness :
  let m := fst (fst (SmartMirrorMemo.start_voice_memo true "20240101_120000"
                       listening_memo quiet_world)) in
  let w := snd (fst (SmartMirrorMemo.start_voice_memo true "20240101_120000"
                       listening_memo quiet_world)) in
  let '(m', w', filepath) := SmartMirrorMemo.stop_recording m w in
  SmartMirrorMemo.current_mode m' = None /\
  SmartMirrorMemo.is_recording m' = false /\
  filepath = delegated_stop voice m w /\
  trace w' = (trace w ++ stop_calls m voice filepath)%list /\
  (forall f, SmartMirrorMemo.on_recording_stop m = Some f ->
     trace w' = (trace w ++ [recording_stop f voice filepath])%list).
Proof.
  intros m w. apply (stop_recording_active m w voice). reflexivity.
Defined.



(** ** The audio capture *)

Section Audio.

Import AudioRecorder.

Lemma write_accepted (fs : FS) (p : string) (c : content) :
  accepts_write fs p ->
  os.write p c fs = inr {| nodes := <[p := File c]> (nodes fs); denied := denied fs |}.
Proof.
  intros [Hdir Hden]. unfold os.write.
  rewrite bool_decide_eq_false_2 by assumption.
  destruct (nodes fs !! p) as [[c'|]|]; congruence.
Qed.




Lemma write_refused (fs : FS) (p : string) (c : content) :
  ~ accepts_write fs p -> exists e, os.write p c fs = inl e.
Proof.
  intros Hno. unfold os.write.
  destruct (nodes fs !! p) as [[c'|]|] eqn:Hp; [|eauto|];
    (destruct (bool_decide_reflect (p ∈ denied fs)) as [Hin|Hout]; [eauto|];
     exfalso; apply Hno; split; [rewrite Hp; discriminate | exact Hout]).
Qed.


End Audio.



(** ** The video capture *)

Section Video.

Import VideoRecorder.

Variable PYAUDIO_AVAILABLE : bool.
Variable mp4v_opens : nat * nat -> bool.

Lemma record_loop_keeps_file (reads : list AudioRecorder.read)
    (a : AudioRecorder.t) :
  AudioRecorder._current_file (AudioRecorder._record_loop reads a)
  = AudioRecorder._current_file a.
Proof.
  revert a. induction reads as [|r reads IH]; intros a; simpl; [reflexivity|].
  destruct (AudioRecorder.is_recording a); simpl; [|reflexivity].
  destruct r; [now rewrite IH | reflexivity].
Qed.

Lemma record_loop_idle (reads : list AudioRecorder.read)
    (a : AudioRecorder.t) :
  AudioRecorder.is_recording a = false ->
  AudioRecorder._record_loop reads a = a.
Proof. intros H. destruct reads; simpl; [reflexivity | now rewrite H]. Qed.

(** An audio stop touches no path but the one of a recorder that is
    recording. *)
Lemma audio_stop_elsewhere (a : AudioRecorder.t) (fs : FS) (q : string) :
  (AudioRecorder.is_recording a = true ->
   AudioRecorder._current_file a <> Some q) ->
  nodes (snd (fst (AudioRecorder.stop_recording a fs))) !! q = nodes fs !! q.
Proof.
  intros Hq. unfold AudioRecorder.stop_recording.
  destruct (AudioRecorder.is_recording a); cbn [negb]; [|reflexivity].
  specialize (Hq eq_refl).
  destruct (negb _ && _); [|reflexivity].
  cbn. unfold AudioRecorder._save_wav. cbn.
  destruct (AudioRecorder._current_file a) as [p|]; [|reflexivity].
  unfold os.write.
  destruct (nodes fs !! p) as [[c|]|]; try reflexivity;
    destruct (bool_decide _); try reflexivity;
    cbn; apply lookup_insert_ne; congruence.
Qed.

Lemma join_relative (d b : string) :
  Str.startswith b "/" = false ->
  exists pre, forall b', Str.startswith b' "/" = false -> path_join d b' = pre +:+ b'.
Proof.
  intros _. unfold path_join.
  destruct (String.eqb d EmptyString || Str.endswith d "/").
  - exists d. intros b' ->. reflexivity.
  - exists (d +:+ "/"). intros b' ->. now rewrite sapp_assoc.
Qed.

Lemma voice_path_is_not_video_path (d x y : string) :
  path_join d ("voice_memo_" +:+ x +:+ ".wav")
  <> path_join d ("video_memo_" +:+ y +:+ ".mp4").
Proof.
  destruct (join_relative d "v" eq_refl) as [pre Hpre].
  rewrite !Hpre by reflexivity.
  intros H. apply String.app_inj in H. discriminate H.
Qed.

(** A writer that did not open stores nothing. *)
Lemma write_frames_closed (frames : list Frame) (v : t) (fs : FS) :
  (forall w, _video_writer v = Some w -> opened w = false) ->
  write_frames frames v fs = fs.
Proof.
  intros Hclosed. unfold write_frames.
  induction frames as [|frame frames IH]; [reflexivity|].
  cbn [foldl]. replace (after_write_frame frame v fs) with fs; [exact IH|].
  unfold after_write_frame, write_frame.
  destruct (is_recording v); [|reflexivity].
  destruct (_video_writer v) as [w|] eqn:Hw; [|reflexivity].
  assert (Hskip : forall f, writer_write w f fs = fs)
    by (intros f; unfold writer_write; now rewrite (Hclosed w eq_refl)).
  destruct (_ || _); [|now rewrite Hskip].
  destruct (resize frame (frame_size v)); [reflexivity | now rewrite Hskip].
Qed.

(** C10, as the code has it: a video session that was started hands back
    its video path when stopped, however many frames were written,
    whatever the companion audio did and whether or not the writer could
    open its output.  The writer opens, and creates the container, when
    the encoder takes the frame size and the file system takes the path:
    then, with no frame written, the empty container is still there at
    the stop.  When the writer cannot open, no file is created: the path
    holds after the session what it held before, and the stop returns
    the path all the same.  An audio recorder stopped with nothing
    captured returns [None] instead. *)
Theorem video_stop_returns_path (now now_audio : string)
    (frame_size' : option (nat * nat)) (v : t) (fs : FS)
    (frames : list Frame) (reads : list AudioRecorder.read) :
  is_recording v = false ->
  let file := path_join (save_dir v) ("video_memo_" +:+ now +:+ ".mp4") in
  let size := default (frame_size v) frame_size' in
  let '(v1, fs1, started) :=
    start_recording PYAUDIO_AVAILABLE mp4v_opens now now_audio frame_size' v fs in
  let '(v2, fs2, result) :=
    stop_recording (audio_loop reads v1) (write_frames frames v1 fs1) in
  started = Some file /\
  result = Some file /\
  is_recording v2 = false /\
  (mp4v_opens size = true -> accepts_write fs file ->
   opened <$> _video_writer v1 = Some true /\
   nodes fs1 !! file = Some (File (Mp4 size [])) /\
   (frames = [] -> nodes fs2 !! file = Some (File (Mp4 size [])))) /\
  (mp4v_opens size = false \/ ~ accepts_write fs file ->
   opened <$> _video_writer v1 = Some false /\
   nodes fs2 !! file = nodes fs !! file) /\
  (forall v' fs', is_recording v' = true ->
     snd (stop_recording v' fs') = _current_file v') /\
  (forall a fs', AudioRecorder._frames a = [] ->
     snd (AudioRecorder.stop_recording a fs') = None).
Proof.
  intros Hidle file size. unfold start_recording. rewrite Hidle.
  fold file. replace (match frame_size' with Some given => given | None => frame_size v end)
    with size by (destruct frame_size'; reflexivity).
  destruct (open_writer mp4v_opens file size fs) as [writer fs1] eqn:Hopen.
  unfold stop_recording, audio_loop. cbn.
  assert (Hstop : forall fs0,
    nodes (snd (fst (AudioRecorder.stop_recording
      (AudioRecorder._record_loop reads
         (if PYAUDIO_AVAILABLE
          then fst (AudioRecorder.start_recording PYAUDIO_AVAILABLE now_audio
                 {| AudioRecorder.save_dir := save_dir v;
                    AudioRecorder.is_recording := false;
                    AudioRecorder._frames := [];
                    AudioRecorder._current_file := Some (audio_file_of file);
                    AudioRecorder.channels := 1;
                    AudioRecorder.rate := 44100%N;
                    AudioRecorder.chunk := 1024 |})
          else {| AudioRecorder.save_dir := save_dir v;
                  AudioRecorder.is_recording := false;
                  AudioRecorder._frames := [];
                  AudioRecorder._current_file := Some (audio_file_of file);
                  AudioRecorder.channels := 1;
                  AudioRecorder.rate := 44100%N;
                  AudioRecorder.chunk := 1024 |})) fs0))) !! file
    = nodes fs0 !! file).
  { intros fs0. apply audio_stop_elsewhere.
    destruct PYAUDIO_AVAILABLE; cbn.
    - intros _. rewrite record_loop_keeps_file. cbn.
      intros [= H]. now apply voice_path_is_not_video_path in H.
    - rewrite record_loop_idle by reflexivity. discriminate. }
  split; [reflexivity|]. split; [reflexivity|]. split; [reflexivity|].
  split; [|split; [|split]].
  - intros Henc Hacc. unfold open_writer in Hopen.
    rewrite Henc, (write_accepted _ _ _ Hacc) in Hopen.
    injection Hopen as <- <-. cbn [opened fmap option_fmap option_map].
    split; [reflexivity|]. split; [cbn; apply lookup_insert_eq|].
    intros ->. cbn [write_frames foldl]. rewrite Hstop.
    cbn. apply lookup_insert_eq.
  - intros Hno.
    assert (Hclosed : writer = {| target := file; writer_size := size;
                                  opened := false |} /\ fs1 = fs).
    { unfold open_writer in Hopen.
      destruct (mp4v_opens size); [|now injection Hopen as <- <-].
      destruct Hno as [Hno|Hno]; [discriminate|].
      destruct (write_refused fs file (Mp4 size []) Hno) as [e He].
      rewrite He in Hopen. now injection Hopen as <- <-. }
    destruct Hclosed as [-> ->]. split; [reflexivity|].
    rewrite write_frames_closed by (cbn; now intros w [= <-]).
    apply Hstop.
  - intros v' fs' Hrec. unfold stop_recording. now rewrite Hrec.
  - intros a fs' Hframes. unfold AudioRecorder.stop_recording.
    destruct (AudioRecorder.is_recording a); cbn [negb]; [|reflexivity].
    now rewrite Hframes.
Qed.

(** With the audio backend present, the companion recorder of every
    started video session aims at a voice-memo path of its own making:
    its [start_recording] replaces the sidecar name it was given. *)
Lemma companion_targets_voice_path (now now_audio : string)
    (frame_size' : option (nat * nat)) (v : t) (fs : FS) :
  is_recording v = false ->
  AudioRecorder._current_file <$>
    _audio_recorder
      (fst (fst (start_recording true mp4v_opens now now_audio frame_size' v fs)))
  = Some (Some (path_join (save_dir v) ("voice_memo_" +:+ now_audio +:+ ".wav"))).
Proof.
  intros Hidle. unfold start_recording. rewrite Hidle.
  destruct (open_writer _ _ _ fs) as [writer fs1]. reflexivity.
Qed.

End Video.

Lemma video_stop_returns_path_witness :
  let file := "memos/video_memo_20240101_120000.mp4" in
  let '(v1, fs1, started) :=
    VideoRecorder.start_recording true opens_non_empty "20240101_120000"
      "20240101_120000" None (VideoRecorder.new "memos") no_files in
  let '(v2, fs2, result) :=
    VideoRecorder.stop_recording (VideoRecorder.audio_loop [] v1)
      (write_frames [] v1 fs1) in
  started = Some file /\ result = Some file /\
  nodes fs2 !! file = Some (File (Mp4 (640, 480) [])).
Proof.
  intros file.
  pose proof (video_stop_returns_path true opens_non_empty "20240101_120000"
                "20240101_120000" None (VideoRecorder.new "memos") no_files
                [] [] eq_refl) as H.
  cbv zeta in H.
  destruct (VideoRecorder.start_recording _ _ _ _ _ _ _) as [[v1 fs1] started].
  destruct (VideoRecorder.stop_recording _ _) as [[v2 fs2] result].
  destruct H as (Hs & Hr & _ & Hfile & _ & _).
  split; [exact Hs | split; [exact Hr |]].
  apply Hfile; [reflexivity| |reflexivity].
  split; [change (nodes no_files) with (∅ : gmap string node);
          rewrite lookup_empty; discriminate
         | apply not_elem_of_empty].
Defined.

(** C10 as stated fails on two sessions, each started and stopped with
    no frame written.  In the first the store refuses the video path, in
    the second the caller asks for the frame size (0, 0): the writer does
    not open, the stop returns the video path, and no file is there. *)
Lemma video_stop_without_file :
  let file := "memos/video_memo_20240101_120000.mp4" in
  (let '(v1, fs1, started) :=
     VideoRecorder.start_recording true opens_non_empty "20240101_120000"
       "20240101_120000" None (VideoRecorder.new "memos") locked_video in
   let '(v2, fs2, result) := VideoRecorder.stop_recording v1 fs1 in
   started = Some file /\ result = Some file /\ nodes fs2 !! file = None) /\
  (let '(v1, fs1, started) :=
     VideoRecorder.start_recording true opens_non_empty "20240101_120000"
       "20240101_120000" (Some (0, 0)) (VideoRecorder.new "memos") no_files in
   let '(v2, fs2, result) := VideoRecorder.stop_recording v1 fs1 in
   started = Some file /\ result = Some file /\ nodes fs2 !! file = None).
Proof. vm_compute. repeat split. Defined.

(** C1 on a run of the code: a video memo started at 12:00:00 with the
    audio backend present, one chunk captured, then stopped.  The sidecar
    name is computed from the video path, but the companion recorder aims
    at a voice-memo path, the captured audio is written there, and nothing
    exists at the sidecar path. *)
Theorem video_audio_misses_sidecar :
  let video_path := "memos/video_memo_20240101_120000.mp4" in
  let sidecar := "memos/video_memo_20240101_120000_audio.wav" in
  let voice_path := "memos/voice_memo_20240101_120000.wav" in
  let '(v1, fs1, started) :=
    VideoRecorder.start_recording true opens_non_empty "20240101_120000"
      "20240101_120000" None (VideoRecorder.new "memos") no_files in
  let v2 := VideoRecorder.audio_loop [AudioRecorder.Chunk two_bytes] v1 in
  let '(v3, fs3, result) := VideoRecorder.stop_recording v2 fs1 in
  started = Some video_path /\
  result = Some video_path /\
  VideoRecorder.audio_file_of video_path = sidecar /\
  AudioRecorder._current_file <$> VideoRecorder._audio_recorder v1
    = Some (Some voice_path) /\
  nodes fs3 !! sidecar = None /\
  nodes fs3 !! voice_path = Some (File (Wav 1 2 44100 1 two_bytes)).
Proof. vm_compute. repeat split. Qed.

(** ** The catalogue: deleting *)

Section Delete.

Import MemoManager.

Lemma exists_lookup (p : string) (fs : FS) :
  os.exists_ p fs = match nodes fs !! p with Some _ => true | None => false end.
Proof. unfold os.exists_. destruct (nodes fs !! p); reflexivity. Qed.

Lemma remove_ok (p : string) (fs fs1 : FS) :
  os.remove p fs = inr fs1 ->
  is_Some (nodes fs !! p) /\ nodes fs1 = delete p (nodes fs).
Proof.
  unfold os.remove. destruct (nodes fs !! p) as [[c|]|]; try discriminate.
  destruct (bool_decide _); [discriminate|]. intros [= <-]. eauto.
Qed.

(** C9: [delete_memo] always returns a boolean and never lets an
    exception out; when a removal raises, the answer is [False]; when the
    answer is [True], the target existed and is gone, nothing is left at
    the sidecar path computed from it, and no other path changed; and the
    answer is [True] whenever the target can be unlinked and the sidecar
    is absent or can be unlinked too. *)
Theorem delete_memo_returns (filepath : string) (fs : FS) :
  let audio_path := VideoRecorder.audio_file_of filepath in
  let '(result, fs') := delete_memo filepath fs in
  (exists b, result = Returned b) /\
  (forall e fs1, delete_try filepath fs = (Raised e, fs1) ->
     result = Returned false) /\
  (result = Returned true ->
     is_Some (nodes fs !! filepath) /\
     nodes fs' !! filepath = None /\
     nodes fs' !! audio_path = None /\
     (forall q, q <> filepath -> q <> audio_path ->
        nodes fs' !! q = nodes fs !! q)) /\
  (removable fs filepath ->
   audio_path = filepath \/ nodes fs !! audio_path = None
     \/ removable fs audio_path ->
   result = Returned true).
Proof.
  intros audio_path.
  destruct (delete_memo filepath fs) as [result fs'] eqn:Hrun.
  split; [|split; [|split]].
  - unfold delete_memo in Hrun.
    destruct (delete_try filepath fs) as [[b|e] fs1]; injection Hrun as <- <-; eauto.
  - intros e fs1 Htry. unfold delete_memo in Hrun. rewrite Htry in Hrun.
    now injection Hrun as <- <-.
  - intros ->. revert Hrun. unfold delete_memo, delete_try.
    change (Str.replace filepath ".mp4" "_audio.wav") with audio_path.
    rewrite exists_lookup.
    destruct (nodes fs !! filepath) as [n|] eqn:Hn; [|discriminate].
    destruct (os.remove filepath fs) as [e|fs1] eqn:Hrm; [discriminate|].
    apply remove_ok in Hrm as [_ Hfs1].
    rewrite exists_lookup.
    destruct (nodes fs1 !! audio_path) as [n'|] eqn:Hn'.
    + destruct (os.remove audio_path fs1) as [e|fs2] eqn:Hrm2; [discriminate|].
      apply remove_ok in Hrm2 as [_ Hfs2]. intros [= <-].
      rewrite Hfs2, Hfs1. repeat split; eauto.
      * destruct (decide (audio_path = filepath)) as [->|Hne].
        -- apply lookup_delete_eq.
        -- rewrite lookup_delete_ne by assumption. apply lookup_delete_eq.
      * apply lookup_delete_eq.
      * intros q Hq Hq'. rewrite !lookup_delete_ne; auto.
    + intros [= <-]. repeat split; eauto.
      * rewrite Hfs1. apply lookup_delete_eq.
      * intros q Hq _. rewrite Hfs1. now apply lookup_delete_ne.
  - intros [[c Hc] Hden] Hside. revert Hrun.
    unfold delete_memo, delete_try.
    change (Str.replace filepath ".mp4" "_audio.wav") with audio_path.
    rewrite exists_lookup, Hc. unfold os.remove at 1. rewrite Hc.
    rewrite bool_decide_eq_false_2 by assumption.
    rewrite exists_lookup. cbn [nodes].
    destruct (decide (audio_path = filepath)) as [Heq|Hne].
    { rewrite Heq, lookup_delete_eq. now intros [= <- _]. }
    rewrite lookup_delete_ne by congruence.
    destruct Hside as [?|[Hnone|[[c' Hc'] Hden']]]; [congruence| |].
    + rewrite Hnone. now intros [= <- _].
    + rewrite Hc'. unfold os.remove. cbn [nodes denied].
      rewrite lookup_delete_ne by congruence. rewrite Hc'.
      rewrite bool_decide_eq_false_2 by assumption. now intros [= <- _].
Qed.

End Delete.

Lemma delete_memo_returns_witness :
  fst (MemoManager.delete_memo "memos/video_memo_20240101_120000.mp4" memo_files)
    = MemoManager.Returned true /\
  nodes (snd (MemoManager.delete_memo "memos/video_memo_20240101_120000.mp4"
                memo_files))
    !! "memos/video_memo_20240101_120000_audio.wav" = None.
Proof.
  pose proof (delete_memo_returns "memos/video_memo_20240101_120000.mp4"
                memo_files) as H.
  cbv zeta in H.
  destruct (MemoManager.delete_memo _ memo_files) as [result fs'] eqn:Hrun.
  assert (Hres : result = MemoManager.Returned true).
  { apply (f_equal fst) in Hrun. vm_compute in Hrun. now subst result. }
  destruct H as (_ & _ & Hok & _). destruct (Hok Hres) as (_ & _ & Hside & _).
  split; [exact Hres | exact Hside].
Defined.

Example delete_directory_is_false :
  fst (MemoManager.delete_memo "memos/archive" memo_files)
  = MemoManager.Returned false.
Proof. vm_compute. reflexivity. Qed.

(** ** The catalogue: listing *)

Section Listing.

Import MemoManager.

Lemma lex_ltb_asym (a b : list nat) :
  Datetime.lex_ltb a b = true -> Datetime.lex_ltb b a = false.
Proof.
  revert b. induction a as [|x a IH]; intros [|y b]; simpl; try congruence.
  destruct (Nat.ltb_spec x y), (Nat.ltb_spec y x), (Nat.eqb_spec x y),
    (Nat.eqb_spec y x); simpl; try lia; try congruence; auto.
Qed.

Lemma lex_ltb_cotrans (a b c : list nat) :
  Datetime.lex_ltb a c = true ->
  Datetime.lex_ltb a b = true \/ Datetime.lex_ltb b c = true.
Proof.
  revert b c. induction a as [|x a IH]; intros [|y b] [|z c]; simpl; auto;
    try discriminate.
  destruct (Nat.ltb_spec x z), (Nat.ltb_spec x y), (Nat.ltb_spec y z),
    (Nat.eqb_spec x z), (Nat.eqb_spec x y), (Nat.eqb_spec y z);
    simpl; auto; try lia; try discriminate.
Qed.

Lemma not_older_total (x y : Memo) :
  Datetime.ltb (timestamp x) (timestamp y) = true -> not_older y x.
Proof.
  unfold not_older, Datetime.geb, Datetime.ltb. intros H.
  now rewrite (lex_ltb_asym _ _ H).
Qed.

Lemma not_older_trans : Transitive not_older.
Proof.
  intros x y z. unfold not_older, Datetime.geb, Datetime.ltb.
  rewrite !negb_true_iff. intros Hxy Hyz.
  destruct (Datetime.lex_ltb (Datetime.fields (timestamp x))
              (Datetime.fields (timestamp z))) eqn:Hxz; [|reflexivity].
  destruct (lex_ltb_cotrans _ (Datetime.fields (timestamp y)) _ Hxz); congruence.
Qed.

Lemma insert_desc_perm (x : Memo) (l : list Memo) : insert_desc x l ≡ₚ x :: l.
Proof.
  induction l as [|y l IH]; simpl; [reflexivity|].
  destruct (Datetime.ltb _ _); [|reflexivity].
  rewrite IH. apply perm_swap.
Qed.

Lemma sort_desc_perm (l : list Memo) : sort_desc l ≡ₚ l.
Proof.
  induction l as [|x l IH]; simpl; [reflexivity|].
  unfold sort_desc in *. simpl. now rewrite insert_desc_perm, IH.
Qed.

Lemma insert_desc_sorted (x : Memo) (l : list Memo) :
  Sorted not_older l -> Sorted not_older (insert_desc x l).
Proof.
  induction 1 as [|y l Hl IH Hhd]; simpl.
  - repeat constructor.
  - destruct (Datetime.ltb (timestamp x) (timestamp y)) eqn:Hlt.
    + constructor; [exact IH|].
      destruct Hhd as [|z l Hyz]; simpl.
      * constructor. now apply not_older_total.
      * destruct (Datetime.ltb (timestamp x) (timestamp z));
          constructor; [assumption | now apply not_older_total].
    + constructor; [now constructor|]. constructor.
      unfold not_older, Datetime.geb. now rewrite Hlt.
Qed.

Lemma sort_desc_sorted (l : list Memo) : StronglySorted not_older (sort_desc l).
Proof.
  apply Sorted_StronglySorted; [exact not_older_trans|].
  induction l as [|x l IH]; [constructor|].
  exact (insert_desc_sorted x _ IH).
Qed.

Lemma scan_entry_some (memo_dir : string) (e : DirEntry) (r : Memo) :
  scan_entry memo_dir e = Some r ->
  filename r = name e /\ isfile e = true /\
  Str.contains "_audio.wav" (name e) = false /\
  memo_type_of (name e) = Some (type r).
Proof.
  unfold scan_entry. destruct (isfile e); cbn [negb]; [|discriminate].
  destruct (Str.contains _ _); [discriminate|].
  destruct (memo_type_of (name e)); [|discriminate].
  intros [= <-]. auto.
Qed.

Lemma memo_type_of_pattern (filename : string) (kind : Mode) :
  memo_type_of filename = Some kind -> named_as kind filename.
Proof.
  unfold memo_type_of, named_as.
  destruct (Str.startswith filename "voice_memo" && _) eqn:Hv.
  - intros [= <-]. apply andb_true_iff in Hv as [H1 H2].
    apply startswith_spec in H1. apply endswith_spec in H2. auto.
  - destruct (Str.startswith filename "video_memo" && _) eqn:Hd; [|discriminate].
    intros [= <-]. apply andb_true_iff in Hd as [H1 H2].
    apply startswith_spec in H1. apply endswith_spec in H2. auto.
Qed.

Lemma get_all_memos_elem (memo_dir : string) (listing : list DirEntry) (r : Memo) :
  r ∈ get_all_memos memo_dir (Some listing) <->
  exists e, e ∈ listing /\ scan_entry memo_dir e = Some r.
Proof.
  unfold get_all_memos. rewrite sort_desc_perm. apply list_elem_of_omap.
Qed.

Lemma get_all_memos_missing_dir (memo_dir : string) :
  get_all_memos memo_dir None = [].
Proof. reflexivity. Qed.

Lemma scan_video_entry (memo_dir : string) (e : DirEntry) :
  name e = video_name -> isfile e = true ->
  scan_entry memo_dir e = Some (pair_record memo_dir (getsize e)).
Proof.
  intros Hname Hfile. unfold scan_entry. rewrite Hname, Hfile. reflexivity.
Qed.

Lemma scan_of_pair (memo_dir : string) (e : DirEntry) (r : Memo) :
  scan_entry memo_dir e = Some r -> of_pair r -> name e = video_name.
Proof.
  intros Hscan Hpair. apply scan_entry_some in Hscan as (Hn & _ & Hc & _).
  destruct Hpair as [H|H]; rewrite Hn in H; [assumption|].
  rewrite H in Hc. discriminate Hc.
Qed.

Lemma filter_none (P : Memo -> Prop) `{forall r, Decision (P r)} (l : list Memo) :
  Forall (fun r => ~ P r) l -> filter P l = [].
Proof.
  induction 1 as [|r l Hr _ IH]; [reflexivity|].
  now rewrite filter_cons_False.
Qed.

Lemma scan_pair_once (memo_dir : string) (listing : list DirEntry) (e : DirEntry) :
  NoDup (name <$> listing) -> e ∈ listing ->
  name e = video_name -> isfile e = true ->
  filter of_pair (omap (scan_entry memo_dir) listing)
  = [pair_record memo_dir (getsize e)].
Proof.
  intros Hnd Hin Hname Hfile.
  induction listing as [|e' l IH]; [inversion Hin|].
  rewrite fmap_cons in Hnd. apply NoDup_cons in Hnd as [Hfresh Hnd].
  change (omap (scan_entry memo_dir) (e' :: l))
    with (match scan_entry memo_dir e' with
          | Some r => r :: omap (scan_entry memo_dir) l
          | None => omap (scan_entry memo_dir) l
          end).
  destruct (decide (name e' = video_name)) as [Heq|Hne].
  - assert (e = e') as <-.
    { apply elem_of_cons in Hin as [?|Hin]; [assumption|].
      exfalso. apply Hfresh. rewrite Heq, <- Hname.
      now apply list_elem_of_fmap_2. }
    rewrite (scan_video_entry _ _ Hname Hfile).
    rewrite filter_cons_True by (left; reflexivity).
    f_equal. apply filter_none.
    apply Forall_forall. intros r Hr Hpair.
    apply list_elem_of_omap in Hr as (e2 & He2 & Hscan).
    apply Hfresh. rewrite Hname, <- (scan_of_pair _ _ _ Hscan Hpair).
    now apply list_elem_of_fmap_2.
  - apply elem_of_cons in Hin as [->|Hin]; [congruence|].
    destruct (scan_entry memo_dir e') as [r|] eqn:Hscan; [|now apply IH].
    rewrite filter_cons_False; [now apply IH|].
    intros Hpair. apply Hne. exact (scan_of_pair _ _ _ Hscan Hpair).
Qed.

(** C7: every record of the listing comes from a regular file whose name
    does not carry the sidecar suffix and matches the voice or the video
    pattern, so sidecars and foreign files yield no record; the records
    are in descending order of time stamp; and in a directory that holds
    the video memo of 2024-01-01 12:00:00, the records named after it or
    after its sidecar are exactly one, of kind video, with that time
    stamp. *)
Theorem get_all_memos_listing (memo_dir : string) (listing : list DirEntry) :
  let memos := get_all_memos memo_dir (Some listing) in
  (forall r, r ∈ memos ->
     Str.contains "_audio.wav" (filename r) = false /\
     Str.endswith (filename r) "_audio.wav" = false /\
     memo_type_of (filename r) = Some (type r) /\
     named_as (type r) (filename r) /\
     exists e, e ∈ listing /\ name e = filename r /\ isfile e = true) /\
  (forall e, e ∈ listing ->
     Str.endswith (name e) "_audio.wav" = true \/ memo_type_of (name e) = None ->
     scan_entry memo_dir e = None /\
     forall r, r ∈ memos -> filename r <> name e) /\
  StronglySorted not_older memos /\
  (forall e, NoDup (name <$> listing) -> e ∈ listing ->
     name e = video_name -> isfile e = true ->
     filter of_pair memos = [pair_record memo_dir (getsize e)]).
Proof.
  intros memos.
  assert (Hrec : forall r, r ∈ memos ->
     Str.contains "_audio.wav" (filename r) = false /\
     Str.endswith (filename r) "_audio.wav" = false /\
     memo_type_of (filename r) = Some (type r) /\
     named_as (type r) (filename r) /\
     exists e, e ∈ listing /\ name e = filename r /\ isfile e = true).
  { intros r Hr. apply get_all_memos_elem in Hr as (e & He & Hscan).
    apply scan_entry_some in Hscan as (Hn & Hf & Hc & Ht).
    rewrite Hn. repeat split; eauto using memo_type_of_pattern.
    destruct (Str.endswith (name e) "_audio.wav") eqn:Hend; [|reflexivity].
    apply endswith_contains in Hend. congruence. }
  split; [exact Hrec|]. split; [|split].
  - intros e He Hbad. split.
    + destruct (scan_entry memo_dir e) as [r|] eqn:Hscan; [exfalso|reflexivity].
      apply scan_entry_some in Hscan as (_ & _ & Hc & Ht).
      destruct Hbad as [Hend|Hnone]; [|congruence].
      apply endswith_contains in Hend. congruence.
    + intros r Hr Hname. destruct (Hrec r Hr) as (_ & Hend & Ht & _).
      rewrite Hname in *. destruct Hbad; congruence.
  - apply sort_desc_sorted.
  - intros e Hnd He Hname Hfile. unfold memos, get_all_memos.
    apply Permutation_singleton_r.
    rewrite sort_desc_perm. now rewrite (scan_pair_once _ _ e).
Qed.

End Listing.

Lemma get_all_memos_listing_witness :
  filter of_pair (MemoManager.get_all_memos "memos" (Some scenario_listing))
  = [pair_record "memos" 7].
Proof.
  apply (proj2 (proj2 (proj2 (get_all_memos_listing "memos" scenario_listing)))
           {| MemoManager.name := video_name; MemoManager.isfile := true;
              MemoManager.mtime := new_year_noon; MemoManager.getsize := 7 |}).
  - apply (bool_decide_unpack _). vm_compute. exact I.
  - apply list_elem_of_In. right. left. reflexivity.
  - reflexivity.
  - reflexivity.
Defined.

(** The scenario directory in full: the voice memo of the next morning
    comes first, the video memo second, and nothing else is listed. *)
Example scenario_listing_result :
  MemoManager.get_all_memos "memos" (Some scenario_listing)
  = [ {| MemoManager.filename := "voice_memo_20240102_080000.wav";
         MemoManager.filepath := "memos/voice_memo_20240102_080000.wav";
         MemoManager.type := voice;
         MemoManager.timestamp :=
           {| year := 2024; month := 1; day := 2; hour := 8; minute := 0;
              second := 0; microsecond := 0 |};
         MemoManager.size := 9 |};
      pair_record "memos" 7 ].
Proof. vm_compute. reflexivity. Qed.

(** * Further properties *)

(** ** Time stamps in file names *)

Section Stamps.

Import Datetime.

Lemma digit_of_digit_char (k : nat) : k < 10 -> digit (digit_char k) = Some k.
Proof.
  intros Hk. do 10 (destruct k as [|k]; [reflexivity|]). lia.
Qed.

Lemma pad2_value (n : nat) : 10 * (n / 10) + n mod 10 = n.
Proof. symmetry. apply Nat.div_mod_eq. Qed.

Lemma two_pad2 (ok : nat -> nat -> bool) (n : nat) (rest : string) :
  n < 100 ->
  two ok (pad2 n +:+ rest)
  = if ok (n / 10) (n mod 10) then [(n, rest)] else [].
Proof.
  intros Hn. unfold two, pad2. rewrite !sapp_cons, sapp_nil_l.
  rewrite digit_of_digit_char by (apply Nat.Div0.div_lt_upper_bound; lia).
  rewrite digit_of_digit_char by (apply Nat.mod_upper_bound; lia).
  now rewrite pad2_value.
Qed.

Lemma one_pad2 (ok : nat -> bool) (n : nat) (rest : string) :
  n < 100 ->
  one ok (pad2 n +:+ rest)
  = if ok (n / 10)
    then [(n / 10, String (digit_char (n mod 10)) rest)] else [].
Proof.
  intros Hn. unfold one, pad2. rewrite !sapp_cons, sapp_nil_l.
  now rewrite digit_of_digit_char by (apply Nat.Div0.div_lt_upper_bound; lia).
Qed.

Ltac small_cases n :=
  do 60 (destruct n as [|n];
         [try lia; try (vm_compute; eexists; reflexivity)|]);
  lia.

Lemma re_Y_pad2 (y : nat) (rest : string) :
  y < 100 * 100 ->
  re_Y (pad2 (y / 100) +:+ pad2 (y mod 100) +:+ rest) = [(y, rest)].
Proof.
  intros Hy. unfold re_Y, bind.
  rewrite two_pad2 by (apply Nat.Div0.div_lt_upper_bound; lia).
  cbn [any2 flat_map].
  rewrite two_pad2 by (apply Nat.mod_upper_bound; lia).
  cbn [any2 flat_map ret app].
  now rewrite <- (Nat.div_mod_eq y 100).
Qed.

Lemma re_m_pad2 (m : nat) (rest : string) :
  1 <= m <= 12 -> exists tl, re_m (pad2 m +:+ rest) = (m, rest) :: tl.
Proof. intros Hm. small_cases m. Qed.

Lemma re_d_pad2 (d : nat) (rest : string) :
  1 <= d <= 31 -> exists tl, re_d (pad2 d +:+ rest) = (d, rest) :: tl.
Proof. intros Hd. small_cases d. Qed.

Lemma re_H_pad2 (h : nat) (rest : string) :
  h <= 23 -> exists tl, re_H (pad2 h +:+ rest) = (h, rest) :: tl.
Proof. intros Hh. small_cases h. Qed.

Lemma re_M_pad2 (m : nat) (rest : string) :
  m <= 59 -> exists tl, re_M (pad2 m +:+ rest) = (m, rest) :: tl.
Proof. intros Hm. small_cases m. Qed.

Lemma re_S_pad2 (sec : nat) (rest : string) :
  sec <= 59 -> exists tl, re_S (pad2 sec +:+ rest) = (sec, rest) :: tl.
Proof. intros Hs. small_cases sec. Qed.

Lemma valid_ranges (d : datetime) :
  valid d = true ->
  1 <= month d <= 12 /\ 1 <= day d <= 31 /\ hour d <= 23 /\
  minute d <= 59 /\ second d <= 59.
Proof.
  unfold valid. rewrite !andb_true_iff, !Nat.leb_le.
  intros (((((((Hy & Hm1) & Hm2) & Hd1) & Hd2) & Hh) & Hmi) & Hs).
  repeat split; try assumption.
  etransitivity; [exact Hd2|]. unfold days_in_month.
  destruct (month d) as [|[|[|[|[|[|[|[|[|[|[|[|]]]]]]]]]]]];
    try destruct (is_leap _); lia.
Qed.

Lemma valid_to_second (d : datetime) : valid (to_second d) = valid d.
Proof. reflexivity. Qed.

Lemma format_regex_strftime (d : datetime) :
  clock_reading d ->
  exists tl, format_regex (strftime d) = (to_second d, EmptyString) :: tl.
Proof.
  intros [Hvalid [_ Hyear]].
  destruct (valid_ranges d Hvalid) as (Hm & Hd & Hh & Hmi & Hs).
  unfold strftime, date8, time6.
  rewrite !sapp_assoc, <- (sapp_nil_r (pad2 (second d))).
  unfold format_regex. unfold bind at 1.
  rewrite re_Y_pad2 by assumption. cbn [flat_map].
  unfold bind at 1.
  match goal with |- context [re_m (pad2 _ +:+ ?r)] =>
    destruct (re_m_pad2 (month d) r Hm) as [tl1 ->] end.
  cbn [flat_map]. unfold bind at 1.
  match goal with |- context [re_d (pad2 _ +:+ ?r)] =>
    destruct (re_d_pad2 (day d) r Hd) as [tl2 ->] end.
  cbn [flat_map]. unfold bind at 1. rewrite sapp_cons, sapp_nil_l.
  cbn [lit flat_map]. rewrite Ascii.eqb_refl. cbn [flat_map].
  unfold bind at 1.
  match goal with |- context [re_H (pad2 _ +:+ ?r)] =>
    destruct (re_H_pad2 (hour d) r Hh) as [tl3 ->] end.
  cbn [flat_map]. unfold bind at 1.
  match goal with |- context [re_M (pad2 _ +:+ ?r)] =>
    destruct (re_M_pad2 (minute d) r Hmi) as [tl4 ->] end.
  cbn [flat_map]. unfold bind at 1.
  match goal with |- context [re_S (pad2 _ +:+ ?r)] =>
    destruct (re_S_pad2 (second d) r Hs) as [tl5 ->] end.
  cbn [flat_map ret app]. eexists. reflexivity.
Qed.

Lemma strptime_stamp (d : datetime) :
  clock_reading d -> strptime (strftime d) = Some (to_second d).
Proof.
  intros Hd. destruct (format_regex_strftime d Hd) as [tl Hparse].
  unfold strptime. rewrite Hparse, valid_to_second.
  destruct Hd as [-> _]. reflexivity.
Qed.

Lemma has_char_app (c : Ascii.ascii) (a b : string) :
  has_char c (a +:+ b) = has_char c a || has_char c b.
Proof.
  induction a as [|x a IH]; [reflexivity|].
  rewrite sapp_cons. cbn [has_char]. now rewrite IH, orb_assoc.
Qed.

Lemma has_char_pad2 (c : Ascii.ascii) (n : nat) :
  n < 100 -> digit c = None -> has_char c (pad2 n) = false.
Proof.
  intros Hn Hc. unfold pad2. cbn [has_char].
  destruct (Ascii.eqb_spec (digit_char (n / 10)) c) as [<-|_].
  { rewrite digit_of_digit_char in Hc; [discriminate|].
    apply Nat.Div0.div_lt_upper_bound; lia. }
  destruct (Ascii.eqb_spec (digit_char (n mod 10)) c) as [<-|_]; [|reflexivity].
  rewrite digit_of_digit_char in Hc; [discriminate|].
  apply Nat.mod_upper_bound; lia.
Qed.

Lemma has_char_date8 (c : Ascii.ascii) (d : datetime) :
  clock_reading d -> digit c = None -> has_char c (date8 d) = false.
Proof.
  intros [Hvalid [_ Hyear]] Hc.
  destruct (valid_ranges d Hvalid) as (Hm & Hd & _).
  unfold date8. rewrite !has_char_app.
  rewrite !has_char_pad2 by
    first [assumption | lia | apply Nat.Div0.div_lt_upper_bound; lia
          | apply Nat.mod_upper_bound; lia].
  reflexivity.
Qed.

Lemma has_char_time6 (c : Ascii.ascii) (d : datetime) :
  clock_reading d -> digit c = None -> has_char c (time6 d) = false.
Proof.
  intros [Hvalid _] Hc.
  destruct (valid_ranges d Hvalid) as (_ & _ & Hh & Hmi & Hs).
  unfold time6. rewrite !has_char_app.
  rewrite !has_char_pad2 by first [assumption | lia]. reflexivity.
Qed.

Lemma has_char_strftime (c : Ascii.ascii) (d : datetime) :
  clock_reading d -> digit c = None -> c <> "_"%char ->
  has_char c (strftime d) = false.
Proof.
  intros Hd Hc Hne. unfold strftime.
  rewrite !has_char_app, has_char_date8, has_char_time6 by assumption.
  cbn [has_char orb].
  destruct (Ascii.eqb_spec "_"%char c); [congruence | reflexivity].
Qed.

Lemma split_none (sep : Ascii.ascii) (s : string) :
  has_char sep s = false -> Str.split sep s = [s].
Proof.
  induction s as [|c s IH]; [reflexivity|].
  cbn [has_char Str.split]. intros H. apply orb_false_iff in H as [Hc Hs].
  rewrite Hc, (IH Hs). reflexivity.
Qed.

Lemma split_app (sep : Ascii.ascii) (s rest : string) :
  has_char sep s = false ->
  Str.split sep (s +:+ String sep rest) = s :: Str.split sep rest.
Proof.
  induction s as [|c s IH].
  - intros _. rewrite sapp_nil_l. cbn [Str.split]. now rewrite Ascii.eqb_refl.
  - cbn [has_char]. intros H. apply orb_false_iff in H as [Hc Hs].
    rewrite sapp_cons. cbn [Str.split]. rewrite Hc, (IH Hs). reflexivity.
Qed.

(** The stamp of a name [<a>_<b>_<stamp>.<ext>] is read back whole. *)
Lemma timestamp_of_stamped (a b ext : string) (d : datetime) :
  clock_reading d ->
  has_char "_" a = false -> has_char "_" b = false -> has_char "_" ext = false ->
  MemoManager.timestamp_of
    (a +:+ "_" +:+ b +:+ "_" +:+ strftime d +:+ "." +:+ ext)
  = Some (to_second d).
Proof.
  intros Hd Ha Hb Hext. unfold MemoManager.timestamp_of.
  assert (Hname : a +:+ "_" +:+ b +:+ "_" +:+ strftime d +:+ "." +:+ ext
                  = a +:+ String "_" (b +:+ String "_"
                      (date8 d +:+ String "_" (time6 d +:+ String "." ext)))).
  { unfold strftime. now rewrite !sapp_assoc, !sapp_cons, !sapp_nil_l. }
  rewrite Hname.
  rewrite (split_app _ a) by assumption.
  rewrite (split_app _ b) by assumption.
  rewrite (split_app _ (date8 d)) by (now apply has_char_date8).
  rewrite split_none.
  2:{ rewrite has_char_app, has_char_time6 by (assumption || reflexivity).
      cbn [has_char orb]. now rewrite Hext. }
  cbn [lookup list_lookup].
  rewrite (split_app _ (time6 d)) by (now apply has_char_time6).
  exact (strptime_stamp d Hd).
Qed.

Lemma contains_has_char (k t : string) (c : Ascii.ascii) :
  Str.contains k t = true -> has_char c k = true -> has_char c t = true.
Proof.
  rewrite contains_spec. intros (pre & post & ->) Hc.
  rewrite !has_char_app, Hc. now rewrite orb_true_r.
Qed.

Lemma stamped_name_not_sidecar (pre ext : string) (d : datetime) :
  clock_reading d ->
  has_char "u" pre = false -> has_char "u" ext = false ->
  Str.contains "_audio.wav" (pre +:+ strftime d +:+ ext) = false.
Proof.
  intros Hd Hpre Hext.
  destruct (Str.contains _ _) eqn:Hc; [|reflexivity].
  apply (contains_has_char _ _ "u") in Hc; [|reflexivity].
  rewrite !has_char_app, Hpre, Hext in Hc.
  rewrite has_char_strftime in Hc by (assumption || reflexivity || discriminate).
  discriminate Hc.
Qed.

Lemma scan_voice_memo (memo_dir : string) (d mt : datetime) (sz : nat) :
  clock_reading d ->
  MemoManager.scan_entry memo_dir (file_entry (voice_memo_name d) mt sz)
  = Some (stamped_record memo_dir (voice_memo_name d) voice d sz).
Proof.
  intros Hd. unfold MemoManager.scan_entry, file_entry.
  cbn [MemoManager.isfile MemoManager.name MemoManager.mtime
       MemoManager.getsize negb].
  unfold voice_memo_name at 1.
  rewrite stamped_name_not_sidecar by (assumption || reflexivity).
  assert (Htype : MemoManager.memo_type_of (voice_memo_name d) = Some voice).
  { unfold MemoManager.memo_type_of.
    assert (Str.startswith (voice_memo_name d) "voice_memo" = true) as ->.
    { apply startswith_spec. now exists ("_" +:+ strftime d +:+ ".wav"). }
    assert (Str.endswith (voice_memo_name d) ".wav" = true) as ->.
    { apply endswith_spec. exists ("voice_memo_" +:+ strftime d).
      unfold voice_memo_name. now rewrite sapp_assoc. }
    reflexivity. }
  rewrite Htype.
  assert (Hstamp : MemoManager.timestamp_of (voice_memo_name d)
                   = Some (to_second d)).
  { exact (timestamp_of_stamped "voice" "memo" "wav" d Hd
             eq_refl eq_refl eq_refl). }
  rewrite Hstamp. reflexivity.
Qed.

Lemma scan_video_memo (memo_dir : string) (d mt : datetime) (sz : nat) :
  clock_reading d ->
  MemoManager.scan_entry memo_dir (file_entry (video_memo_name d) mt sz)
  = Some (stamped_record memo_dir (video_memo_name d) video d sz).
Proof.
  intros Hd. unfold MemoManager.scan_entry, file_entry.
  cbn [MemoManager.isfile MemoManager.name MemoManager.mtime
       MemoManager.getsize negb].
  unfold video_memo_name at 1.
  rewrite stamped_name_not_sidecar by (assumption || reflexivity).
  assert (Htype : MemoManager.memo_type_of (video_memo_name d) = Some video).
  { unfold MemoManager.memo_type_of.
    assert (Str.startswith (video_memo_name d) "voice_memo" = false) as ->
      by reflexivity.
    assert (Str.startswith (video_memo_name d) "video_memo" = true) as ->.
    { apply startswith_spec. now exists ("_" +:+ strftime d +:+ ".mp4"). }
    assert (Str.endswith (video_memo_name d) ".mp4" = true) as ->.
    { apply endswith_spec. exists ("video_memo_" +:+ strftime d).
      unfold video_memo_name. now rewrite sapp_assoc. }
    reflexivity. }
  rewrite Htype.
  assert (Hstamp : MemoManager.timestamp_of (video_memo_name d)
                   = Some (to_second d)).
  { exact (timestamp_of_stamped "video" "memo" "mp4" d Hd
             eq_refl eq_refl eq_refl). }
  rewrite Hstamp. reflexivity.
Qed.

(** X1: reading back the stamp the recorders put into a file name gives
    the clock reading it was made from, cut to whole seconds. *)
Theorem strptime_strftime (d : datetime) :
  clock_reading d -> strptime (strftime d) = Some (to_second d).
Proof. exact (strptime_stamp d). Qed.

(** X2: the names the two recorders make up at a clock reading are the
    names the catalogue reads back: a file under the voice name is listed
    as a voice memo and a file under the video name as a video memo, each
    with that clock reading as its time stamp, whatever the file's
    modification time. *)
Theorem generated_names_are_listed (memo_dir : string) (d mt : datetime)
    (sz : nat) :
  clock_reading d ->
  snd (AudioRecorder.start_recording true (strftime d)
         (AudioRecorder.new memo_dir))
    = Some (path_join memo_dir (voice_memo_name d)) /\
  (forall availability mp4v_opens now_audio fs,
     snd (VideoRecorder.start_recording availability mp4v_opens (strftime d)
            now_audio None (VideoRecorder.new memo_dir) fs)
     = Some (path_join memo_dir (video_memo_name d))) /\
  MemoManager.get_all_memos memo_dir
    (Some [file_entry (voice_memo_name d) mt sz])
    = [stamped_record memo_dir (voice_memo_name d) voice d sz] /\
  MemoManager.get_all_memos memo_dir
    (Some [file_entry (video_memo_name d) mt sz])
    = [stamped_record memo_dir (video_memo_name d) video d sz].
Proof.
  intros Hd. split; [reflexivity|]. split.
  - intros availability mp4v_opens now_audio fs.
    unfold VideoRecorder.start_recording.
    cbn [VideoRecorder.is_recording VideoRecorder.new].
    destruct (VideoRecorder.open_writer _ _ _ fs). reflexivity.
  - unfold MemoManager.get_all_memos. cbn [omap list_omap].
    rewrite scan_voice_memo, scan_video_memo by assumption.
    split; reflexivity.
Qed.

End Stamps.

Lemma noon_sharp_is_clock_reading : clock_reading noon_sharp.
Proof. split; [reflexivity | cbn; lia]. Qed.

Lemma strptime_strftime_witness :
  Datetime.strptime "20240101_120000" = Some new_year_noon.
Proof.
  apply (strptime_strftime noon_sharp). split; [reflexivity | cbn; lia].
Defined.

Lemma generated_names_are_listed_witness :
  MemoManager.get_all_memos "memos"
    (Some [file_entry "voice_memo_20240101_120000.wav" noon_sharp 9])
  = [stamped_record "memos" "voice_memo_20240101_120000.wav" voice
       noon_sharp 9].
Proof.
  apply (generated_names_are_listed "memos" noon_sharp noon_sharp 9).
  split; [reflexivity | cbn; lia].
Defined.

(** ** More on the catalogue *)

Section Catalogue.

Import MemoManager.

Lemma length_split (sep : Ascii.ascii) (s : string) :
  length (Str.split sep s) = S (count_char sep s).
Proof.
  induction s as [|c s IH]; [reflexivity|].
  cbn [Str.split count_char]. destruct (Ascii.eqb c sep).
  - cbn [length]. now rewrite IH.
  - destruct (Str.split sep s) as [|h t]; [discriminate IH|].
    cbn [length] in *. lia.
Qed.

Lemma format_regex_whole_seconds (s rest : string) (d : datetime) :
  In (d, rest) (Datetime.format_regex s) -> microsecond d = 0.
Proof.
  unfold Datetime.format_regex, Datetime.bind, Datetime.ret. intros H.
  repeat (apply in_flat_map in H as ([? ?] & _ & H)).
  destruct H as [[= <- _]|[]]. reflexivity.
Qed.

Lemma strptime_some (s : string) (d : datetime) :
  Datetime.strptime s = Some d -> Datetime.valid d = true /\ microsecond d = 0.
Proof.
  unfold Datetime.strptime.
  destruct (Datetime.format_regex s) as [|[d' [|c rest]] tl] eqn:Hparse;
    try discriminate.
  destruct (Datetime.valid d') eqn:Hvalid; [|discriminate].
  intros [= <-]. split; [assumption|].
  apply (format_regex_whole_seconds s EmptyString). rewrite Hparse. now left.
Qed.

(** X3: the time stamp of a record is either read from the file name,
    and then it is a valid date in whole seconds, or it is the file's
    modification time; a name with fewer than three underscores always
    gets the modification time. *)
Theorem timestamp_or_mtime (memo_dir : string) (e : DirEntry) (r : Memo) :
  scan_entry memo_dir e = Some r ->
  (timestamp_of (name e) = Some (timestamp r) /\
   Datetime.valid (timestamp r) = true /\ microsecond (timestamp r) = 0
   \/ timestamp_of (name e) = None /\ timestamp r = mtime e) /\
  (count_char "_" (name e) < 3 -> timestamp r = mtime e).
Proof.
  unfold scan_entry. destruct (isfile e); cbn [negb]; [|discriminate].
  destruct (Str.contains _ _); [discriminate|].
  destruct (memo_type_of (name e)); [|discriminate].
  assert (Hfew : count_char "_" (name e) < 3 -> timestamp_of (name e) = None).
  { intros Hcount. unfold timestamp_of.
    pose proof (length_split "_" (name e)) as Hlen.
    destruct (Str.split "_" (name e)) as [|a [|b [|c [|x l]]]];
      cbn [length] in Hlen; try reflexivity; lia. }
  destruct (timestamp_of (name e)) as [d|] eqn:Hstamp; intros [= <-];
    cbn [timestamp].
  - split; [left | intros Hcount; discriminate (Hfew Hcount)].
    unfold timestamp_of in Hstamp.
    destruct (Str.split "_" (name e) !! 2); [|discriminate].
    destruct (Str.split "_" (name e) !! 3); [|discriminate].
    destruct (Str.split "." _); [discriminate|].
    apply strptime_some in Hstamp. tauto.
  - split; [right | intros _]; auto.
Qed.

Lemma count_partition (l : list Memo) :
  length l = length (filter (fun m => type m = voice) l)
             + length (filter (fun m => type m = video) l).
Proof.
  induction l as [|r l IH]; [reflexivity|].
  destruct (type r) eqn:Hr.
  - rewrite filter_cons_True, filter_cons_False by congruence.
    cbn [length]. lia.
  - rewrite filter_cons_False, filter_cons_True by congruence.
    cbn [length]. lia.
Qed.

Lemma length_omap_le {A B} (f : A -> option B) (l : list A) :
  length (omap f l) <= length l.
Proof.
  induction l as [|x l IH]; [reflexivity|].
  cbn [omap list_omap length]. fold (omap f l).
  destruct (f x); cbn [length]; lia.
Qed.

(** X4: the counts add up: the total is the number of voice memos plus
    the number of video memos, it never exceeds the number of directory
    entries, and a missing directory counts as empty. *)
Theorem memo_count_adds_up (memo_dir : string) (dir : option (list DirEntry)) :
  let c := get_memo_count memo_dir dir in
  total c = voice_count c + video_count c /\
  total c = length (get_all_memos memo_dir dir) /\
  total c <= length (default [] dir) /\
  get_memo_count memo_dir None = {| total := 0; voice_count := 0; video_count := 0 |}.
Proof.
  cbn zeta. unfold get_memo_count. cbn [total voice_count video_count].
  split; [apply count_partition|]. split; [reflexivity|]. split; [|reflexivity].
  destruct dir as [listing|]; [|reflexivity]. cbn [default get_all_memos].
  rewrite sort_desc_perm. apply length_omap_le.
Qed.

Lemma ltb_irrefl (d : datetime) : Datetime.ltb d d = false.
Proof.
  unfold Datetime.ltb. destruct (Datetime.lex_ltb _ _) eqn:H; [|reflexivity].
  pose proof (lex_ltb_asym _ _ H). congruence.
Qed.

Lemma insert_desc_same_stamp (t : datetime) (x : Memo) (l : list Memo) :
  filter (fun r => timestamp r = t) (insert_desc x l)
  = filter (fun r => timestamp r = t) (x :: l).
Proof.
  induction l as [|y l IH]; [reflexivity|].
  cbn [insert_desc].
  destruct (Datetime.ltb (timestamp x) (timestamp y)) eqn:Hlt; [|reflexivity].
  rewrite (filter_cons _ y), IH, !(filter_cons _ x), (filter_cons _ y).
  destruct (decide (timestamp y = t)) as [Hy|Hy];
    destruct (decide (timestamp x = t)) as [Hx|Hx]; try reflexivity.
  rewrite Hx, Hy, ltb_irrefl in Hlt. discriminate.
Qed.

(** X5: the sort is stable: records with the same time stamp come out in
    the order in which [os.listdir] returned their files. *)
Theorem equal_stamps_keep_listing_order (memo_dir : string)
    (listing : list DirEntry) (t : datetime) :
  filter (fun r => timestamp r = t) (get_all_memos memo_dir (Some listing))
  = filter (fun r => timestamp r = t) (omap (scan_entry memo_dir) listing).
Proof.
  unfold get_all_memos, sort_desc.
  induction (omap (scan_entry memo_dir) listing) as [|x l IH]; [reflexivity|].
  cbn [foldr]. rewrite insert_desc_same_stamp, !(filter_cons _ x), IH.
  reflexivity.
Qed.

End Catalogue.

Lemma timestamp_or_mtime_witness :
  MemoManager.timestamp
    {| MemoManager.filename := "voice_memo_backup.wav";
       MemoManager.filepath := "memos/voice_memo_backup.wav";
       MemoManager.type := voice; MemoManager.timestamp := noon_sharp;
       MemoManager.size := 3 |}
  = MemoManager.mtime (file_entry "voice_memo_backup.wav" noon_sharp 3).
Proof.
  apply (proj2 (timestamp_or_mtime "memos"
                  (file_entry "voice_memo_backup.wav" noon_sharp 3) _ eq_refl)).
  cbn. lia.
Defined.

(** ** Derived paths and deleting *)

Section Deleting.

Import MemoManager.

Lemma contains_cons (k : string) (c : Ascii.ascii) (t : string) :
  Str.contains k (String c t) = false ->
  Str.startswith (String c t) k = false /\ Str.contains k t = false.
Proof. cbn [Str.contains]. apply orb_false_iff. Qed.

Lemma replace_absent (s old new : string) :
  Str.contains old s = false -> Str.replace s old new = s.
Proof.
  unfold Str.replace. induction s as [|c s IH]; [reflexivity|].
  intros H. apply contains_cons in H as [Hhead Htail].
  cbn [Str.replace_from]. rewrite Hhead, (IH Htail). reflexivity.
Qed.

Lemma startswith_before_suffix (s : string) :
  s <> EmptyString ->
  Str.startswith s ".mp4" = false ->
  Str.startswith (s +:+ ".mp4") ".mp4" = false.
Proof.
  destruct s as [|c1 [|c2 [|c3 [|c4 s]]]]; [congruence|..]; intros _;
    rewrite ?sapp_cons, ?sapp_nil_l; cbn [Str.startswith];
    repeat match goal with
           | |- context [Ascii.eqb ?a ?b] =>
               is_var b; destruct (Ascii.eqb_spec a b); [subst|]
           end; try reflexivity; try (intros H; exact H).
Qed.

Lemma replace_stem (stem new : string) :
  Str.contains ".mp4" stem = false ->
  Str.replace (stem +:+ ".mp4") ".mp4" new = stem +:+ new.
Proof.
  unfold Str.replace. induction stem as [|c stem IH].
  - intros _. rewrite !sapp_nil_l. cbn. apply sapp_nil_r.
  - intros H. apply contains_cons in H as [Hhead Htail].
    assert (Hne : String c stem <> EmptyString) by discriminate.
    pose proof (startswith_before_suffix _ Hne Hhead) as Hnot.
    rewrite !sapp_cons in *. cbn [Str.replace_from].
    now rewrite Hnot, (IH Htail).
Qed.

(** X6: for a video path whose stem holds no ".mp4", the sidecar path is
    the stem followed by "_audio.wav"; a path that holds no ".mp4" at all
    is its own sidecar path. *)
Theorem sidecar_of_plain_stem (stem : string) :
  Str.contains ".mp4" stem = false ->
  VideoRecorder.audio_file_of (stem +:+ ".mp4") = stem +:+ "_audio.wav" /\
  VideoRecorder.audio_file_of stem = stem.
Proof.
  intros H. unfold VideoRecorder.audio_file_of.
  split; [now apply replace_stem | now apply replace_absent].
Qed.

Lemma remove_removable (p : string) (fs : FS) :
  removable fs p ->
  os.remove p fs = inr {| nodes := delete p (nodes fs); denied := denied fs |}.
Proof.
  intros [[c Hc] Hden]. unfold os.remove. rewrite Hc.
  now rewrite bool_decide_eq_false_2.
Qed.

Lemma remove_refused (p : string) (fs : FS) :
  ~ removable fs p -> exists e, os.remove p fs = inl e.
Proof.
  intros Hno. unfold os.remove.
  destruct (nodes fs !! p) as [[c|]|] eqn:Hp; eauto.
  destruct (bool_decide (p ∈ denied fs)) eqn:Hden; eauto.
  exfalso. apply Hno. split; [eauto|].
  now apply bool_decide_eq_false in Hden.
Qed.

(** X7: deleting a removable file whose path holds no ".mp4" (a voice
    memo) returns [True] and removes that file and nothing else. *)
Theorem delete_plain_path (filepath : string) (fs : FS) :
  removable fs filepath ->
  Str.contains ".mp4" filepath = false ->
  delete_memo filepath fs
  = (Returned true,
     {| nodes := delete filepath (nodes fs); denied := denied fs |}).
Proof.
  intros Hrem Hplain. unfold delete_memo, delete_try.
  rewrite exists_lookup. destruct Hrem as [[c Hc] Hden]. rewrite Hc.
  rewrite (remove_removable filepath fs) by (split; eauto).
  rewrite (replace_absent _ _ _ Hplain), exists_lookup. cbn [nodes].
  now rewrite lookup_delete_eq.
Qed.

(** X8: the ways [delete_memo] answers [False]: a path that does not
    exist, or a target that cannot be unlinked, leaves every file as it
    was; a sidecar that exists but cannot be unlinked gives [False] after
    the target itself has been removed. *)
Theorem delete_failures (filepath : string) (fs : FS) :
  let audio_path := VideoRecorder.audio_file_of filepath in
  (nodes fs !! filepath = None ->
   delete_memo filepath fs = (Returned false, fs)) /\
  (~ removable fs filepath ->
   delete_memo filepath fs = (Returned false, fs)) /\
  (removable fs filepath -> audio_path <> filepath ->
   is_Some (nodes fs !! audio_path) -> ~ removable fs audio_path ->
   delete_memo filepath fs
   = (Returned false,
      {| nodes := delete filepath (nodes fs); denied := denied fs |})).
Proof.
  intros audio_path. unfold delete_memo, delete_try.
  change (Str.replace filepath ".mp4" "_audio.wav") with audio_path.
  rewrite exists_lookup. split; [|split].
  - intros ->. reflexivity.
  - intros Hno. destruct (nodes fs !! filepath) eqn:Hp; [|reflexivity].
    destruct (remove_refused _ _ Hno) as [e ->]. reflexivity.
  - intros Hrem Hne [n Hn] Hno. pose proof Hrem as [[c Hc] _]. rewrite Hc.
    rewrite (remove_removable _ _ Hrem), exists_lookup. cbn [nodes].
    rewrite lookup_delete_ne, Hn by congruence.
    set (fs1 := {| nodes := delete filepath (nodes fs); denied := denied fs |}).
    assert (Hno1 : ~ removable fs1 audio_path).
    { intros [[c' Hc'] Hden]. apply Hno. split; [|exact Hden].
      exists c'. cbn in Hc'. now rewrite lookup_delete_ne in Hc' by congruence. }
    destruct (remove_refused _ _ Hno1) as [e ->]. reflexivity.
Qed.

Lemma delete_true_gone (filepath : string) (fs : FS) :
  fst (delete_memo filepath fs) = Returned true ->
  nodes (snd (delete_memo filepath fs)) !! filepath = None.
Proof.
  unfold delete_memo, delete_try. rewrite exists_lookup.
  destruct (nodes fs !! filepath) as [n|] eqn:Hn; [|discriminate].
  destruct (os.remove filepath fs) as [e|fs1] eqn:Hrm; [discriminate|].
  apply remove_ok in Hrm as [_ Hfs1]. rewrite exists_lookup.
  destruct (nodes fs1 !! _) as [n'|] eqn:Hn'.
  - destruct (os.remove _ fs1) as [e|fs2] eqn:Hrm2; [discriminate|].
    apply remove_ok in Hrm2 as [_ Hfs2]. intros _. cbn [snd].
    rewrite Hfs2, Hfs1.
    destruct (decide (Str.replace filepath ".mp4" "_audio.wav" = filepath))
      as [->|Hne]; [apply lookup_delete_eq|].
    rewrite lookup_delete_ne by assumption. apply lookup_delete_eq.
  - intros _. cbn [snd]. rewrite Hfs1. apply lookup_delete_eq.
Qed.

(** X9: a memo is deleted once: after a delete that answered [True], a
    second delete of the same path answers [False] and changes nothing. *)
Theorem delete_twice (filepath : string) (fs : FS) :
  fst (delete_memo filepath fs) = Returned true ->
  delete_memo filepath (snd (delete_memo filepath fs))
  = (Returned false, snd (delete_memo filepath fs)).
Proof.
  intros Hok. apply delete_true_gone in Hok.
  set (fs' := snd (delete_memo filepath fs)) in *.
  unfold delete_memo, delete_try. rewrite exists_lookup, Hok. reflexivity.
Qed.

End Deleting.

(** ** More on the audio capture *)

Section AudioSessions.

Import AudioRecorder.

(** X10: a capture loop buffers, in order, exactly the chunks delivered
    before the first device error, stays recording if and only if no
    error came, and never changes the target path; on a recorder that is
    not recording it does nothing. *)
Theorem record_loop_buffers (reads : list read) (a : t) :
  (is_recording a = true ->
   _frames (_record_loop reads a)
     = (_frames a ++ chunks_before_error reads)%list /\
   is_recording (_record_loop reads a) = negb (has_error reads) /\
   _current_file (_record_loop reads a) = _current_file a) /\
  (is_recording a = false -> _record_loop reads a = a).
Proof.
  split; [|apply record_loop_idle].
  revert a. induction reads as [|r reads IH]; intros a Hrec.
  - cbn. now rewrite app_nil_r.
  - cbn [_record_loop]. rewrite Hrec. cbn [negb]. destruct r as [data|].
    + match goal with |- context [_record_loop reads ?x] =>
        destruct (IH x eq_refl) as (H1 & H2 & H3) end.
      cbn [_frames _current_file] in H1, H3.
      rewrite H1, H2, H3, <- app_assoc. auto.
    + cbn. now rewrite app_nil_r.
Qed.













End AudioSessions.

(** ** More on the video capture *)

Section VideoSessions.

Import VideoRecorder.

Variable PYAUDIO_AVAILABLE : bool.
Variable mp4v_opens : nat * nat -> bool.

Lemma fit_shape (size : nat * nat) (frame : Frame) :
  shape (fit size frame) = (snd size, fst size).
Proof.
  unfold fit. destruct frame as [[rows cols] depth img]. cbn [shape fst snd].
  destruct (Nat.eqb_spec cols (fst size)), (Nat.eqb_spec rows (snd size));
    cbn; congruence.
Qed.

Lemma fit_channels (size : nat * nat) (frame : Frame) :
  n_channels (fit size frame) = n_channels frame.
Proof. unfold fit. now destruct (_ || _). Qed.

(** Resampling a colour picture to a size that is not empty succeeds. *)
Lemma resize_colour_picture (size : nat * nat) (frame : Frame) :
  colour_picture frame -> empty_size size = false ->
  resize frame size
  = inr {| shape := (snd size, fst size); n_channels := n_channels frame;
           image := image frame |}.
Proof.
  intros (Hc & Hrows & Hcols) Hsize. unfold resize, empty_size in *.
  rewrite Hc. destruct (fst (shape frame)); [lia|].
  destruct (snd (shape frame)); [lia|]. cbn. now rewrite Hsize.
Qed.

(** What [write_frame] hands to the writer for a colour picture. *)
Lemma write_frame_fits (frame : Frame) (v : t) (fs : FS) (w : VideoWriter) :
  is_recording v = true -> _video_writer v = Some w ->
  colour_picture frame -> empty_size (frame_size v) = false ->
  write_frame frame v fs = inr (writer_write w (fit (frame_size v) frame) fs).
Proof.
  intros Hrec Hw Hframe Hsize. unfold write_frame, fit. rewrite Hrec, Hw.
  destruct (_ || _); [|reflexivity].
  now rewrite resize_colour_picture.
Qed.

Lemma fit_image (size : nat * nat) (frame : Frame) :
  image (fit size frame) = image frame.
Proof. unfold fit. now destruct (_ || _). Qed.

Lemma record_loop_recording (reads : list AudioRecorder.read)
    (a : AudioRecorder.t) :
  AudioRecorder.is_recording (AudioRecorder._record_loop reads a) = true ->
  AudioRecorder.is_recording a = true.
Proof.
  destruct (AudioRecorder.is_recording a) eqn:Hrec; [reflexivity|].
  rewrite record_loop_idle by assumption. congruence.
Qed.

Lemma audio_stop_denied (a : AudioRecorder.t) (fs : FS) :
  denied (snd (fst (AudioRecorder.stop_recording a fs))) = denied fs.
Proof.
  unfold AudioRecorder.stop_recording.
  destruct (AudioRecorder.is_recording a); cbn [negb]; [|reflexivity].
  destruct (negb _ && _); [|reflexivity].
  cbn. unfold AudioRecorder._save_wav. cbn.
  destruct (AudioRecorder._current_file a) as [p|]; [|reflexivity].
  unfold os.write.
  destruct (nodes fs !! p) as [[c|]|]; try reflexivity;
    destruct (bool_decide _); reflexivity.
Qed.

Lemma writer_write_elsewhere (w : VideoWriter) (frame : Frame) (fs : FS) :
  denied (writer_write w frame fs) = denied fs /\
  (forall q, q <> target w ->
     nodes (writer_write w frame fs) !! q = nodes fs !! q).
Proof.
  unfold writer_write. destruct (opened w); [|auto].
  destruct (_ && _); [|auto].
  destruct (nodes fs !! target w) as [[[ | sz frames]|]|]; auto.
  cbn. split; [reflexivity|]. intros q Hq. now apply lookup_insert_ne.
Qed.

Lemma write_frame_elsewhere (frame : Frame) (v : t) (fs : FS)
    (file : string) (size : nat * nat) (o : bool) :
  writing v file size o ->
  denied (after_write_frame frame v fs) = denied fs /\
  (forall q, q <> file ->
     nodes (after_write_frame frame v fs) !! q = nodes fs !! q).
Proof.
  intros (Hrec & _ & Hw & _). unfold after_write_frame, write_frame.
  rewrite Hrec, Hw.
  match goal with |- context [writer_write ?w0 _ _] =>
    pose proof (fun f => writer_write_elsewhere w0 f fs) as Hww end.
  cbn [target] in Hww.
  destruct (_ || _); [|apply Hww].
  destruct (resize frame (frame_size v)); [auto | apply Hww].
Qed.

Lemma write_frame_appends (frame : Frame) (v : t) (fs : FS)
    (file : string) (size : nat * nat) (stored : list Frame) :
  writing v file size true ->
  colour_picture frame -> empty_size size = false ->
  nodes fs !! file = Some (File (Mp4 size stored)) ->
  nodes (after_write_frame frame v fs) !! file
  = Some (File (Mp4 size (stored ++ [fit size frame]))).
Proof.
  intros (Hrec & _ & Hw & Hsize) Hframe Hne Hfile. unfold after_write_frame.
  rewrite (write_frame_fits frame v fs _ Hrec Hw Hframe)
    by now rewrite Hsize.
  rewrite Hsize. unfold writer_write. cbn [opened target writer_size].
  rewrite fit_channels, (proj1 Hframe), fit_shape.
  rewrite bool_decide_eq_true_2 by reflexivity. cbn [Nat.eqb andb].
  rewrite Hfile. cbn [nodes]. now rewrite lookup_insert_eq.
Qed.

Lemma video_step_keeps (c : video_call) (v : t) (fs : FS)
    (file path : string) (size : nat * nat) (o : bool) :
  writing v file size o -> companion_aims_at v path ->
  writing (fst (video_step PYAUDIO_AVAILABLE mp4v_opens c (v, fs))) file size o /\
  companion_aims_at (fst (video_step PYAUDIO_AVAILABLE mp4v_opens c (v, fs)))
    path /\
  denied (snd (video_step PYAUDIO_AVAILABLE mp4v_opens c (v, fs))) = denied fs /\
  (forall q, q <> file ->
     nodes (snd (video_step PYAUDIO_AVAILABLE mp4v_opens c (v, fs))) !! q
     = nodes fs !! q).
Proof.
  intros Hw Hcomp. destruct c as [now now_audio fsz|frame|reads];
    cbn [video_step fst snd].
  - unfold start_recording. destruct Hw as (Hrec & Hrest). rewrite Hrec.
    cbn [fst snd]. repeat split; auto; apply Hrest.
  - destruct (write_frame_elsewhere frame v fs file size o Hw). auto.
  - repeat split; auto; try apply Hw.
    intros a Ha Hrec. unfold audio_loop in Ha. cbn in Ha.
    destruct (_audio_recorder v) as [a0|] eqn:Ha0; [|discriminate].
    injection Ha as <-. rewrite record_loop_keeps_file.
    apply (Hcomp a0 Ha0). now apply record_loop_recording in Hrec.
Qed.

Lemma video_step_stores (c : video_call) (v : t) (fs : FS)
    (file : string) (size : nat * nat) (stored : list Frame) :
  writing v file size true ->
  Forall colour_picture (frames_of [c]) -> empty_size size = false ->
  nodes fs !! file = Some (File (Mp4 size stored)) ->
  nodes (snd (video_step PYAUDIO_AVAILABLE mp4v_opens c (v, fs))) !! file
  = Some (File (Mp4 size (stored ++ (fit size <$> frames_of [c])))).
Proof.
  intros Hw Hframes Hne Hfile. destruct c as [now now_audio fsz|frame|reads];
    cbn [video_step fst snd frames_of omap list_omap fmap list_fmap] in *.
  - unfold start_recording. destruct Hw as (Hrec & _). rewrite Hrec.
    cbn [fst snd]. now rewrite app_nil_r.
  - apply write_frame_appends; try assumption.
    now apply Forall_cons in Hframes as [? _].
  - now rewrite app_nil_r.
Qed.

Lemma video_run (calls : list video_call) (v : t) (fs : FS)
    (file path : string) (size : nat * nat) (o : bool) :
  writing v file size o -> companion_aims_at v path ->
  let s := foldl (fun s c => video_step PYAUDIO_AVAILABLE mp4v_opens c s)
                 (v, fs) calls in
  writing (fst s) file size o /\ companion_aims_at (fst s) path /\
  denied (snd s) = denied fs /\
  (forall q, q <> file -> nodes (snd s) !! q = nodes fs !! q) /\
  (forall stored, o = true ->
     Forall colour_picture (frames_of calls) -> empty_size size = false ->
     nodes fs !! file = Some (File (Mp4 size stored)) ->
     nodes (snd s) !! file
     = Some (File (Mp4 size (stored ++ (fit size <$> frames_of calls))))).
Proof.
  revert v fs. induction calls as [|c calls IH]; intros v fs Hw Hcomp.
  - cbn [foldl fst snd]. cbn zeta.
    split; [assumption|]. split; [assumption|]. split; [reflexivity|].
    split; [reflexivity|]. intros stored _ _ _ H. cbn. now rewrite app_nil_r.
  - cbn [foldl].
    destruct (video_step_keeps c v fs file path size o Hw Hcomp)
      as (Hw' & Hcomp' & Hden & Hother).
    pose proof (fun stored => video_step_stores c v fs file size stored) as Hst.
    destruct (video_step PYAUDIO_AVAILABLE mp4v_opens c (v, fs)) as [v' fs'].
    cbn [fst snd] in *.
    destruct (IH v' fs' Hw' Hcomp') as (K1 & K2 & K3 & K4 & K5).
    cbn zeta. split; [assumption|]. split; [assumption|].
    split; [congruence|]. split.
    + intros q Hq. now rewrite K4, Hother.
    + intros stored -> Hframes Hne Hfile.
      change (c :: calls) with ([c] ++ calls)%list in Hframes.
      unfold frames_of in Hframes. rewrite omap_app in Hframes.
      apply Forall_app in Hframes as [Hc Hrest].
      rewrite (K5 _ eq_refl Hrest Hne (Hst stored Hw Hc Hne Hfile)),
        <- app_assoc.
      f_equal. f_equal. f_equal. unfold frames_of.
      now rewrite <- fmap_app, <- omap_app.
Qed.

Lemma video_start (now now_audio : string) (frame_size' : option (nat * nat))
    (v : t) (fs : FS) :
  is_recording v = false ->
  exists v1 fs1 o,
    start_recording PYAUDIO_AVAILABLE mp4v_opens now now_audio frame_size' v fs
    = (v1, fs1, Some (video_path (save_dir v) now)) /\
    writing v1 (video_path (save_dir v) now)
      (default (frame_size v) frame_size') o /\
    companion_aims_at v1 (voice_path (save_dir v) now_audio) /\
    (PYAUDIO_AVAILABLE = false -> forall path, companion_aims_at v1 path) /\
    denied fs1 = denied fs /\
    (forall q, q <> video_path (save_dir v) now ->
       nodes fs1 !! q = nodes fs !! q) /\
    (mp4v_opens (default (frame_size v) frame_size') = true ->
     accepts_write fs (video_path (save_dir v) now) ->
     o = true /\
     nodes fs1 !! video_path (save_dir v) now
     = Some (File (Mp4 (default (frame_size v) frame_size') []))).
Proof.
  intros Hidle. unfold start_recording. rewrite Hidle.
  fold (video_path (save_dir v) now).
  replace (match frame_size' with Some given => given | None => frame_size v end)
    with (default (frame_size v) frame_size') by (destruct frame_size'; reflexivity).
  set (file := video_path (save_dir v) now).
  set (size := default (frame_size v) frame_size').
  assert (Hcomp : forall w,
    companion_aims_at
      {| save_dir := save_dir v; is_recording := true;
         _current_file := Some file; _video_writer := Some w;
         _audio_recorder := Some
           (if PYAUDIO_AVAILABLE
            then fst (AudioRecorder.start_recording PYAUDIO_AVAILABLE now_audio
                   {| AudioRecorder.save_dir := save_dir v;
                      AudioRecorder.is_recording := false;
                      AudioRecorder._frames := [];
                      AudioRecorder._current_file := Some (audio_file_of file);
                      AudioRecorder.channels := 1;
                      AudioRecorder.rate := 44100%N;
                      AudioRecorder.chunk := 1024 |})
            else {| AudioRecorder.save_dir := save_dir v;
                    AudioRecorder.is_recording := false;
                    AudioRecorder._frames := [];
                    AudioRecorder._current_file := Some (audio_file_of file);
                    AudioRecorder.channels := 1;
                    AudioRecorder.rate := 44100%N;
                    AudioRecorder.chunk := 1024 |});
         fps := fps v; frame_size := size |}
      (voice_path (save_dir v) now_audio)).
  { intros w a [= <-]. destruct PYAUDIO_AVAILABLE; cbn; [reflexivity|discriminate]. }
  assert (Hidle_comp : forall w, PYAUDIO_AVAILABLE = false -> forall path,
    companion_aims_at
      {| save_dir := save_dir v; is_recording := true;
         _current_file := Some file; _video_writer := Some w;
         _audio_recorder := Some
           (if PYAUDIO_AVAILABLE
            then fst (AudioRecorder.start_recording PYAUDIO_AVAILABLE now_audio
                   {| AudioRecorder.save_dir := save_dir v;
                      AudioRecorder.is_recording := false;
                      AudioRecorder._frames := [];
                      AudioRecorder._current_file := Some (audio_file_of file);
                      AudioRecorder.channels := 1;
                      AudioRecorder.rate := 44100%N;
                      AudioRecorder.chunk := 1024 |})
            else {| AudioRecorder.save_dir := save_dir v;
                    AudioRecorder.is_recording := false;
                    AudioRecorder._frames := [];
                    AudioRecorder._current_file := Some (audio_file_of file);
                    AudioRecorder.channels := 1;
                    AudioRecorder.rate := 44100%N;
                    AudioRecorder.chunk := 1024 |});
         fps := fps v; frame_size := size |} path).
  { intros w -> path a [= <-]. discriminate. }
  unfold open_writer, os.write.
  destruct (mp4v_opens size) eqn:Henc;
    [destruct (nodes fs !! file) as [[c|]|] eqn:Hfile;
       try destruct (bool_decide (file ∈ denied fs)) eqn:Hden|];
    eexists _, _, _; (split; [reflexivity|]);
    (split; [repeat split|]); (split; [apply Hcomp|]);
    (split; [apply Hidle_comp|]); (split; [reflexivity|]);
    (split; [try reflexivity; intros q Hq; cbn; now apply lookup_insert_ne|]);
    intros Hyes [Hdir Hd];
    try discriminate Hyes;
    try (apply bool_decide_eq_true in Hden; contradiction);
    try congruence;
    (split; [reflexivity | cbn; apply lookup_insert_eq]).
Qed.

Lemma video_stop (v : t) (fs : FS) (file path : string) (size : nat * nat)
    (o : bool) :
  writing v file size o -> companion_aims_at v path ->
  exists v3 fs3,
    stop_recording v fs = (v3, fs3, Some file) /\
    is_recording v3 = false /\ _audio_recorder v3 = None /\
    _video_writer v3 = None /\ denied fs3 = denied fs /\
    (forall q, q <> path -> nodes fs3 !! q = nodes fs !! q).
Proof.
  intros (Hrec & Hfile & _ & _) Hcomp. unfold stop_recording.
  rewrite Hrec, Hfile. cbn [negb]. eexists _, _. split; [reflexivity|].
  cbn [is_recording _audio_recorder _video_writer]. repeat split.
  - destruct (_audio_recorder v); [apply audio_stop_denied | reflexivity].
  - intros q Hq. destruct (_audio_recorder v) as [a|] eqn:Ha; [|reflexivity].
    apply audio_stop_elsewhere. intros Hreca.
    rewrite (Hcomp a Ha Hreca). congruence.
Qed.

(** X13: when the writer of a video session has opened (the encoder
    takes the frame size, which is not empty, and the file system takes
    the path) and the frames offered are colour pictures that are not
    empty, then between the start and the stop the container holds, in
    order, every frame offered so far, each brought to the configured
    size; repeated starts and the companion's audio do not truncate or
    reorder it. *)
Theorem video_container_holds_frames (now now_audio : string)
    (frame_size' : option (nat * nat)) (calls : list video_call)
    (v : t) (fs : FS) :
  let size := default (frame_size v) frame_size' in
  is_recording v = false ->
  mp4v_opens size = true -> empty_size size = false ->
  accepts_write fs (video_path (save_dir v) now) ->
  Forall colour_picture (frames_of calls) ->
  let stored := fit size <$> frames_of calls in
  let '(v1, fs1, _) :=
    start_recording PYAUDIO_AVAILABLE mp4v_opens now now_audio frame_size' v fs in
  let '(v2, fs2) :=
    foldl (fun s c => video_step PYAUDIO_AVAILABLE mp4v_opens c s) (v1, fs1)
          calls in
  nodes fs2 !! video_path (save_dir v) now = Some (File (Mp4 size stored)) /\
  Forall (fun frame => shape frame = (snd size, fst size)) stored /\
  image <$> stored = image <$> frames_of calls /\
  is_recording v2 = true /\
  _current_file v2 = Some (video_path (save_dir v) now).
Proof.
  intros size Hidle Henc Hne Hacc Hframes stored.
  destruct (video_start now now_audio frame_size' v fs Hidle)
    as (v1 & fs1 & o & -> & Hw & Hcomp & _ & _ & _ & Hopen).
  destruct (Hopen Henc Hacc) as [-> Hfile].
  destruct (video_run calls v1 fs1 _ _ _ _ Hw Hcomp) as (K1 & _ & _ & _ & K5).
  destruct (foldl _ _ calls) as [v2 fs2]. cbn [fst snd] in *.
  split; [exact (K5 [] eq_refl Hframes Hne Hfile)|]. split; [|split].
  - apply Forall_fmap, Forall_forall. intros frame _. apply fit_shape.
  - unfold stored. rewrite <- list_fmap_compose. apply list_fmap_ext.
    intros i frame _. apply fit_image.
  - destruct K1 as (? & ? & _). auto.
Qed.

(** X14: a whole video session returns the video path and leaves the
    recorder stopped with no writer and no companion; of the files it
    changes at most the video file and the companion's own voice-memo
    file, and without an audio backend the video file alone. *)
Theorem video_session_footprint (now now_audio : string)
    (frame_size' : option (nat * nat)) (calls : list video_call)
    (v : t) (fs : FS) :
  is_recording v = false ->
  let '(v3, fs3, result) :=
    video_session PYAUDIO_AVAILABLE mp4v_opens now now_audio frame_size' calls
      v fs in
  result = Some (video_path (save_dir v) now) /\
  is_recording v3 = false /\ _audio_recorder v3 = None /\
  _video_writer v3 = None /\ denied fs3 = denied fs /\
  (forall q, q <> video_path (save_dir v) now ->
     q <> voice_path (save_dir v) now_audio ->
     nodes fs3 !! q = nodes fs !! q) /\
  (PYAUDIO_AVAILABLE = false ->
   forall q, q <> video_path (save_dir v) now ->
     nodes fs3 !! q = nodes fs !! q).
Proof.
  intros Hidle. unfold video_session.
  destruct (video_start now now_audio frame_size' v fs Hidle)
    as (v1 & fs1 & o & -> & Hw & Hcomp & Hnone & Hden & Hother & _).
  destruct (video_run calls v1 fs1 _ _ _ _ Hw Hcomp) as (K1 & K2 & K3 & K4 & _).
  pose proof (fun Hno path =>
    video_run calls v1 fs1 _ path _ _ Hw (Hnone Hno path)) as Kno.
  destruct (foldl _ _ calls) as [v2 fs2]. cbn [fst snd] in *.
  destruct (video_stop v2 fs2 _ _ _ _ K1 K2)
    as (v3 & fs3 & Hstop & S1 & S2 & S3 & S4 & S5).
  rewrite Hstop. repeat split; auto; try congruence.
  - intros q Hq Hq'. now rewrite S5, K4, Hother.
  - intros Hno q Hq.
    destruct (Kno Hno (video_path (save_dir v) now)) as (_ & K2' & _).
    destruct (video_stop v2 fs2 _ _ _ _ K1 K2')
      as (v3' & fs3' & Hstop' & _ & _ & _ & _ & S5').
    rewrite Hstop in Hstop'. injection Hstop' as <- <-.
    now rewrite S5', K4, Hother.
Qed.

End VideoSessions.

(** ** The running system *)

Section Running.

Import SmartMirrorMemo.

Variable PYAUDIO_AVAILABLE : bool.
Variable mp4v_opens : nat * nat -> bool.

Lemma audio_stop_idle (a : AudioRecorder.t) (fs : FS) :
  AudioRecorder.is_recording (fst (fst (AudioRecorder.stop_recording a fs)))
  = false.
Proof.
  unfold AudioRecorder.stop_recording.
  destruct (AudioRecorder.is_recording a) eqn:Hrec; cbn [negb]; [|exact Hrec].
  destruct (negb _ && _); reflexivity.
Qed.

Lemma start_voice_memo_consistent (now : string) (m : t) (w : World) :
  consistent m ->
  consistent (fst (fst (start_voice_memo PYAUDIO_AVAILABLE now m w))).
Proof.
  intros Hm. pose proof Hm as (Ha & Hv & Hrest). unfold start_voice_memo.
  destruct (current_mode m) eqn:Hmode; [exact Hm|].
  destruct (AudioRecorder.start_recording _ _ _) as [a filepath].
  cbn [fst]. split; [reflexivity|]. split; [|exact Hrest].
  cbn [video_recorder current_mode]. split; [|discriminate].
  intros Hrec. apply Hv in Hrec. congruence.
Qed.

Lemma start_video_memo_consistent (now now_audio : string)
    (frame_size : option (nat * nat)) (m : t) (w : World) :
  consistent m ->
  consistent (fst (fst (start_video_memo PYAUDIO_AVAILABLE mp4v_opens now now_audio
                          frame_size m w))).
Proof.
  intros Hm. pose proof Hm as (Ha & Hv & Hrest). unfold start_video_memo.
  destruct (current_mode m) eqn:Hmode; [exact Hm|].
  assert (Hidle : VideoRecorder.is_recording (video_recorder m) = false).
  { destruct (VideoRecorder.is_recording (video_recorder m)) eqn:Hrec;
      [|reflexivity]. pose proof (proj1 Hv eq_refl). discriminate. }
  destruct (video_start PYAUDIO_AVAILABLE mp4v_opens now now_audio frame_size
              (video_recorder m) (files w) Hidle)
    as (v1 & fs1 & o & -> & (Hrec & _) & _).
  cbn [fst]. split; [|split].
  - cbn [audio_recorder current_mode]. intros H. apply Ha in H. discriminate.
  - cbn [video_recorder current_mode]. split; auto.
  - cbn [video_recorder]. rewrite Hrec. discriminate.
Qed.

Lemma stop_recording_consistent (m : t) (w : World) :
  consistent m -> consistent (fst (fst (stop_recording m w))).
Proof.
  intros Hm. pose proof Hm as (Ha & Hv & Hrest). unfold stop_recording.
  destruct (current_mode m) as [[|]|] eqn:Hmode; [| |exact Hm].
  - pose proof (audio_stop_idle (audio_recorder m) (files w)) as Hidle.
    destruct (AudioRecorder.stop_recording _ _) as [[a fs] filepath].
    cbn [fst] in *. split; [|split].
    + cbn [audio_recorder]. rewrite Hidle. discriminate.
    + cbn [video_recorder current_mode]. split; [|discriminate].
      intros H. apply Hv in H. discriminate.
    + exact Hrest.
  - assert (Hrec : VideoRecorder.is_recording (video_recorder m) = true)
      by now apply Hv.
    unfold VideoRecorder.stop_recording. rewrite Hrec. cbn [negb fst].
    split; [|split].
    + cbn [audio_recorder]. intros H. apply Ha in H. discriminate.
    + cbn. split; discriminate.
    + cbn. auto.
Qed.

Lemma capture_consistent (reads : list AudioRecorder.read) (m : t) :
  consistent m -> consistent (capture reads m).
Proof.
  intros (Ha & Hv & Hrest). unfold capture. split; [|split].
  - cbn [audio_recorder current_mode]. intros H.
    apply record_loop_recording in H. auto.
  - cbn. exact Hv.
  - cbn. intros H. destruct (Hrest H) as [-> ->]. auto.
Qed.

Lemma on_voice_command_consistent (now now_audio command : string)
    (m : t) (w : World) :
  consistent m ->
  consistent (fst (_on_voice_command PYAUDIO_AVAILABLE mp4v_opens now now_audio
                     command m w)).
Proof.
  intros Hm. unfold _on_voice_command.
  destruct (String.eqb command "voice_memo");
    [now apply start_voice_memo_consistent|].
  destruct (String.eqb command "video_memo");
    [now apply start_video_memo_consistent|].
  destruct (String.eqb command "stop");
    [now apply stop_recording_consistent | exact Hm].
Qed.

Lemma handle_key_consistent (now now_audio : string) (fw fh key : nat)
    (m : t) (w : World) :
  consistent m ->
  consistent (fst (fst (memo_demo.handle_key PYAUDIO_AVAILABLE mp4v_opens now now_audio
                          fw fh key m w))).
Proof.
  intros Hm. unfold memo_demo.handle_key.
  repeat match goal with
         | |- context [if ?b then _ else _] => destruct b
         end; cbn [fst]; auto using start_voice_memo_consistent,
                           start_video_memo_consistent,
                           stop_recording_consistent.
Qed.

Lemma step_consistent {SPEECH_RECOGNITION_AVAILABLE : bool} (c : Run.call)
    (s : Run.system) :
  consistent (Run.memo s) ->
  consistent (Run.memo (Run.step PYAUDIO_AVAILABLE mp4v_opens
                          SPEECH_RECOGNITION_AVAILABLE c s)).
Proof.
  intros Hm. destruct s as [r m w n]. cbn [Run.memo] in Hm.
  destruct c; cbn [Run.step Run.recognizer Run.memo Run.world Run.turns].
  - exact Hm.
  - unfold stop.
    match goal with |- context [stop_recording ?m1 w] =>
      pose proof (stop_recording_consistent m1 w Hm) as H;
      destruct (stop_recording m1 w) as [[m2 w2] res] end.
    exact H.
  - pose proof (start_voice_memo_consistent now m w Hm) as H.
    destruct (start_voice_memo _ _ _ _) as [[m' w'] res]. exact H.
  - pose proof (start_video_memo_consistent now now_audio frame_size m w Hm) as H.
    destruct (start_video_memo _ _ _ _ _ _ _) as [[m' w'] res]. exact H.
  - pose proof (stop_recording_consistent m w Hm) as H.
    destruct (stop_recording _ _) as [[m' w'] res]. exact H.
  - destruct (write_video_frame frame m w); exact Hm.
  - now apply capture_consistent.
  - destruct (VoiceRecognizer._listen_test r); exact Hm.
  - destruct n as [|n]; [exact Hm|].
    unfold VoiceRecognizer._listen_turn, voice_callback.
    destruct h; try exact Hm.
    destruct (VoiceRecognizer._match_command text) as [cmd|]; [|exact Hm].
    cbn [Str.truthy]. destruct cmd; [exact Hm|].
    pose proof (on_voice_command_consistent now now_audio (String a cmd) m w Hm)
      as H.
    destruct (_on_voice_command _ _ _ _ _ _ _) as [m' w']. exact H.
  - pose proof (handle_key_consistent now now_audio frame_width frame_height
                  key m w Hm) as H.
    destruct (memo_demo.handle_key _ _ _ _ _ _ _ _ _) as [[m' w'] act]. exact H.
  - destruct (memo_demo.feed_frame frame m w); exact Hm.
Qed.

Lemma run_consistent {SPEECH_RECOGNITION_AVAILABLE : bool}
    (calls : list Run.call) (s : Run.system) :
  consistent (Run.memo s) ->
  consistent (Run.memo (Run.run PYAUDIO_AVAILABLE mp4v_opens
                          SPEECH_RECOGNITION_AVAILABLE calls s)).
Proof.
  revert s. induction calls as [|c calls IH]; intros s Hs; [exact Hs|].
  cbn [Run.run foldl]. apply IH. now apply step_consistent.
Qed.

Lemma fresh_consistent (save_dir : string) (on_start on_stop : option Callback)
    (fs : FS) :
  consistent (Run.memo (Run.fresh save_dir on_start on_stop fs)).
Proof. cbn. repeat split; auto; discriminate. Qed.

(** X15: when speech recognition is not available, so that no listening
    thread is ever started and the calls reach the coordinator one after
    the other, the recorders agree with the mode after every call,
    however calls, key presses, camera frames and turns of the capture
    loops follow each other: the two recorders never record at the same
    time, a recorder records only in its own mode, and an idle
    coordinator has no recorder recording. *)
Theorem recorders_follow_mode (calls : list Run.call) (save_dir : string)
    (on_start on_stop : option Callback) (fs : FS) :
  let m := Run.memo (Run.run PYAUDIO_AVAILABLE mp4v_opens false
                       calls (Run.fresh save_dir on_start on_stop fs)) in
  consistent m /\
  ~ (AudioRecorder.is_recording (audio_recorder m) = true /\
     VideoRecorder.is_recording (video_recorder m) = true) /\
  (current_mode m = None ->
   AudioRecorder.is_recording (audio_recorder m) = false /\
   VideoRecorder.is_recording (video_recorder m) = false).
Proof.
  intros m.
  assert (Hm : consistent m)
    by apply run_consistent, fresh_consistent.
  split; [exact Hm|]. destruct Hm as (Ha & Hv & _). split.
  - intros [H1 H2]. apply Ha in H1. apply Hv in H2. congruence.
  - intros Hidle. split.
    + destruct (AudioRecorder.is_recording _); [|reflexivity].
      specialize (Ha eq_refl). congruence.
    + destruct (VideoRecorder.is_recording _); [|reflexivity].
      pose proof (proj1 Hv eq_refl). congruence.
Qed.

Lemma notify_start_calls (m m' : t) (mode : Mode) (tr : list Event) :
  on_recording_start m' = on_recording_start m ->
  notify_start m' mode tr = (tr ++ start_calls m mode)%list.
Proof.
  intros H. unfold notify_start, start_calls. rewrite H.
  destruct (on_recording_start m); [reflexivity | now rewrite app_nil_r].
Qed.

Lemma notify_stop_calls (m m' : t) (mode : Mode) (filepath : option string)
    (tr : list Event) :
  on_recording_stop m' = on_recording_stop m ->
  notify_stop m' mode filepath tr = (tr ++ stop_calls m mode filepath)%list.
Proof.
  intros H. unfold notify_stop, stop_calls. rewrite H.
  destruct (on_recording_stop m); [reflexivity | now rewrite app_nil_r].
Qed.

Lemma moves_refl (m : t) (w : World) : moves m w m w.
Proof. unfold moves. auto. Qed.

Lemma start_voice_memo_moves (now : string) (m : t) (w : World) :
  moves m w (fst (fst (start_voice_memo PYAUDIO_AVAILABLE now m w)))
            (snd (fst (start_voice_memo PYAUDIO_AVAILABLE now m w))).
Proof.
  unfold start_voice_memo.
  destruct (current_mode m) eqn:Hmode; [apply moves_refl|].
  destruct (AudioRecorder.start_recording _ _ _) as [a filepath].
  cbn [fst snd]. unfold moves. rewrite Hmode.
  split; [reflexivity|]. split; [reflexivity|]. right. left.
  split; [reflexivity|]. exists voice. split; [reflexivity|].
  cbn [trace]. now apply notify_start_calls.
Qed.

Lemma start_video_memo_moves (now now_audio : string)
    (frame_size : option (nat * nat)) (m : t) (w : World) :
  moves m w
    (fst (fst (start_video_memo PYAUDIO_AVAILABLE mp4v_opens now now_audio frame_size m w)))
    (snd (fst (start_video_memo PYAUDIO_AVAILABLE mp4v_opens now now_audio frame_size m w))).
Proof.
  unfold start_video_memo.
  destruct (current_mode m) eqn:Hmode; [apply moves_refl|].
  destruct (VideoRecorder.start_recording _ _ _ _ _ _ _) as [[v fs] filepath].
  cbn [fst snd]. unfold moves. rewrite Hmode.
  split; [reflexivity|]. split; [reflexivity|]. right. left.
  split; [reflexivity|]. exists video. split; [reflexivity|].
  cbn [trace]. now apply notify_start_calls.
Qed.

Lemma stop_recording_moves (m : t) (w : World) :
  moves m w (fst (fst (stop_recording m w))) (snd (fst (stop_recording m w))).
Proof.
  unfold stop_recording.
  destruct (current_mode m) as [mode|] eqn:Hmode; [|apply moves_refl].
  destruct mode;
    [destruct (AudioRecorder.stop_recording _ _) as [[a fs] filepath]
    |destruct (VideoRecorder.stop_recording _ _) as [[v fs] filepath]];
    cbn [fst snd]; unfold moves; rewrite Hmode;
    (split; [reflexivity|]); (split; [reflexivity|]); right; right;
    eexists _, filepath; (split; [reflexivity|]); (split; [reflexivity|]);
    cbn [trace]; now apply notify_stop_calls.
Qed.

Lemma on_voice_command_moves (now now_audio command : string)
    (m : t) (w : World) :
  moves m w
    (fst (_on_voice_command PYAUDIO_AVAILABLE mp4v_opens now now_audio command m w))
    (snd (_on_voice_command PYAUDIO_AVAILABLE mp4v_opens now now_audio command m w)).
Proof.
  unfold _on_voice_command.
  destruct (String.eqb command "voice_memo"); [apply start_voice_memo_moves|].
  destruct (String.eqb command "video_memo"); [apply start_video_memo_moves|].
  destruct (String.eqb command "stop");
    [apply stop_recording_moves | apply moves_refl].
Qed.

Lemma handle_key_moves (now now_audio : string) (fw fh key : nat)
    (m : t) (w : World) :
  moves m w
    (fst (fst (memo_demo.handle_key PYAUDIO_AVAILABLE mp4v_opens now now_audio
                 fw fh key m w)))
    (snd (fst (memo_demo.handle_key PYAUDIO_AVAILABLE mp4v_opens now now_audio
                 fw fh key m w))).
Proof.
  unfold memo_demo.handle_key.
  repeat match goal with
         | |- context [if ?b then _ else _] => destruct b
         end; cbn [fst snd];
    auto using moves_refl, start_voice_memo_moves, start_video_memo_moves,
               stop_recording_moves.
Qed.

Lemma write_video_frame_trace (frame : Frame) (m : t) (w w' : World) :
  write_video_frame frame m w = inr w' -> trace w' = trace w.
Proof.
  unfold write_video_frame.
  destruct (current_mode m) as [[|]|]; try (now intros [= <-]).
  destruct (VideoRecorder.is_recording _); [|now intros [= <-]].
  destruct (VideoRecorder.write_frame _ _ _); [discriminate | now intros [= <-]].
Qed.

Lemma step_moves {SPEECH_RECOGNITION_AVAILABLE : bool} (c : Run.call)
    (s : Run.system) :
  moves (Run.memo s) (Run.world s)
    (Run.memo (Run.step PYAUDIO_AVAILABLE mp4v_opens SPEECH_RECOGNITION_AVAILABLE c s))
    (Run.world (Run.step PYAUDIO_AVAILABLE mp4v_opens SPEECH_RECOGNITION_AVAILABLE c s)).
Proof.
  destruct s as [r m w n].
  destruct c; cbn [Run.step Run.recognizer Run.memo Run.world Run.turns].
  - unfold moves. cbn. auto.
  - unfold stop.
    match goal with |- context [stop_recording ?m1 w] =>
      pose proof (stop_recording_moves m1 w) as H;
      destruct (stop_recording m1 w) as [[m2 w2] res] end.
    exact H.
  - pose proof (start_voice_memo_moves now m w) as H.
    destruct (start_voice_memo _ _ _ _) as [[m' w'] res]. exact H.
  - pose proof (start_video_memo_moves now now_audio frame_size m w) as H.
    destruct (start_video_memo _ _ _ _ _ _ _) as [[m' w'] res]. exact H.
  - pose proof (stop_recording_moves m w) as H.
    destruct (stop_recording _ _) as [[m' w'] res]. exact H.
  - destruct (write_video_frame frame m w) as [e|w'] eqn:Hw;
      [apply moves_refl|].
    unfold moves. cbn. rewrite (write_video_frame_trace _ _ _ _ Hw). auto.
  - unfold moves. cbn. auto.
  - destruct (VoiceRecognizer._listen_test r); apply moves_refl.
  - destruct n as [|n]; [apply moves_refl|].
    unfold VoiceRecognizer._listen_turn, voice_callback.
    destruct h; try apply moves_refl.
    destruct (VoiceRecognizer._match_command text) as [cmd|];
      [|apply moves_refl].
    cbn [Str.truthy]. destruct cmd; [apply moves_refl|].
    pose proof (on_voice_command_moves now now_audio (String a cmd) m w) as H.
    destruct (_on_voice_command _ _ _ _ _ _ _) as [m' w']. exact H.
  - pose proof (handle_key_moves now now_audio frame_width frame_height
                  key m w) as H.
    destruct (memo_demo.handle_key _ _ _ _ _ _ _ _ _) as [[m' w'] act]. exact H.
  - destruct (memo_demo.feed_frame frame m w) as [e|w'] eqn:Hw;
      [apply moves_refl|].
    unfold memo_demo.feed_frame, get_recording_mode in Hw.
    unfold moves. cbn.
    destruct (current_mode m) as [[|]|];
      first [apply write_video_frame_trace in Hw as -> | injection Hw as <-];
      auto.
Qed.

Lemma status_after_start (tr : list Event) (f : Callback) (mode : Mode) :
  memo_demo.recording_status (tr ++ [recording_start f mode]) = Some mode.
Proof. unfold memo_demo.recording_status. now rewrite foldl_snoc. Qed.

Lemma status_after_stop (tr : list Event) (f : Callback) (mode : Mode)
    (filepath : option string) :
  memo_demo.recording_status (tr ++ [recording_stop f mode filepath]) = None.
Proof. unfold memo_demo.recording_status. now rewrite foldl_snoc. Qed.

Lemma run_mirrors {SPEECH_RECOGNITION_AVAILABLE : bool} (f g : Callback)
    (calls : list Run.call) (s : Run.system) :
  on_recording_start (Run.memo s) = Some f ->
  on_recording_stop (Run.memo s) = Some g ->
  memo_demo.recording_status (trace (Run.world s)) = current_mode (Run.memo s) ->
  memo_demo.recording_status
    (trace (Run.world (Run.run PYAUDIO_AVAILABLE mp4v_opens SPEECH_RECOGNITION_AVAILABLE
                         calls s)))
  = current_mode (Run.memo (Run.run PYAUDIO_AVAILABLE mp4v_opens
                              SPEECH_RECOGNITION_AVAILABLE calls s)).
Proof.
  revert s. induction calls as [|c calls IH]; intros s Hf Hg Hs; [exact Hs|].
  cbn [Run.run foldl]. 
  destruct (@step_moves SPEECH_RECOGNITION_AVAILABLE c s) as (Hf' & Hg' & Hmove).
  apply IH; [congruence | congruence |].
  destruct Hmove as [[Hmode Htr]|[(Hidle & mode & Hmode & Htr)
                                 |(mode & filepath & Hwas & Hmode & Htr)]].
  - congruence.
  - rewrite Htr, Hmode. unfold start_calls. rewrite Hf.
    apply status_after_start.
  - rewrite Htr, Hmode. unfold stop_calls. rewrite Hg.
    apply status_after_stop.
Qed.

(** X16: when speech recognition is not available, so that the calls
    reach the coordinator one after the other, and the two callbacks of
    the demo are registered, the recording status the demo keeps for its
    overlay is, after every call, the mode of the coordinator. *)
Theorem demo_status_mirrors_mode (calls : list Run.call) (save_dir : string)
    (f g : Callback) (fs : FS) :
  let s := Run.run PYAUDIO_AVAILABLE mp4v_opens false calls
             (Run.fresh save_dir (Some f) (Some g) fs) in
  memo_demo.recording_status (trace (Run.world s)) = current_mode (Run.memo s).
Proof. intros s. now apply (run_mirrors f g). Qed.

Lemma match_command_some (text cmd : string) :
  VoiceRecognizer._match_command text = Some cmd ->
  (cmd = "voice_memo" \/ cmd = "video_memo" \/ cmd = "stop") /\
  mentions cmd (Str.lower text).
Proof.
  unfold VoiceRecognizer._match_command. intros H.
  apply first_command_some in H as (before & kws & after & Hsplit & Hany & _).
  assert (Hin : In (cmd, kws) VoiceRecognizer.COMMANDS).
  { rewrite Hsplit. apply in_or_app. right. now left. }
  split.
  - cbn in Hin. destruct Hin as [H|[H|[H|[]]]]; inversion H; auto.
  - apply mentions_any. eauto.
Qed.

Lemma match_command_voice (text : string) :
  mentions "voice_memo" (Str.lower text) ->
  VoiceRecognizer._match_command text = Some "voice_memo".
Proof.
  intros H. apply mentions_any in H as (kws & Hin & Hany).
  unfold VoiceRecognizer._match_command.
  cbn [In VoiceRecognizer.COMMANDS] in Hin.
  destruct Hin as [Hin | [Hin | [Hin | []]]]; inversion Hin; subst kws.
  unfold VoiceRecognizer.COMMANDS. cbn [VoiceRecognizer.first_command].
  now rewrite Hany.
Qed.

(** X17: a turn of the listening thread that delivers what it heard ends
    without any other effect unless it is a command that applies: while
    a session is active, a text without a stop keyword is ignored; while
    idle, a text without a start keyword is ignored; and a turn that ends
    in a timeout or an error is skipped. *)
Theorem speech_without_effect (SPEECH_RECOGNITION_AVAILABLE : bool)
    (s : Run.system) (text now now_audio : string) :
  let listened h :=
    Run.step PYAUDIO_AVAILABLE mp4v_opens SPEECH_RECOGNITION_AVAILABLE
      (Run.Listened h now now_audio) s in
  (current_mode (Run.memo s) <> None ->
   ~ mentions "stop" (Str.lower text) ->
   listened (VoiceRecognizer.Text text) = turn_over s) /\
  (current_mode (Run.memo s) = None ->
   ~ mentions "voice_memo" (Str.lower text) ->
   ~ mentions "video_memo" (Str.lower text) ->
   listened (VoiceRecognizer.Text text) = turn_over s) /\
  listened VoiceRecognizer.WaitTimeoutError = turn_over s /\
  listened VoiceRecognizer.UnknownValueError = turn_over s /\
  listened VoiceRecognizer.RequestError = turn_over s /\
  listened VoiceRecognizer.OtherException = turn_over s.
Proof.
  destruct s as [r m w n]. cbn zeta. unfold turn_over.
  cbn [Run.step Run.recognizer Run.memo Run.world Run.turns].
  destruct n as [|n]; [repeat split; reflexivity|]. cbn [Nat.pred].
  unfold VoiceRecognizer._listen_turn, voice_callback.
  split; [|split; [|repeat split; reflexivity]].
  - intros Hactive Hnostop.
    destruct (VoiceRecognizer._match_command text) as [cmd|] eqn:Hcmd;
      [|reflexivity].
    destruct (match_command_some text cmd Hcmd) as [[-> | [-> | ->]] Hm];
      cbn [Str.truthy]; unfold _on_voice_command; cbn [String.eqb Ascii.eqb];
      [unfold start_voice_memo | unfold start_video_memo | contradiction];
      destruct (current_mode m); try congruence; reflexivity.
  - intros Hidle Hnovoice Hnovideo.
    destruct (VoiceRecognizer._match_command text) as [cmd|] eqn:Hcmd;
      [|reflexivity].
    destruct (match_command_some text cmd Hcmd) as [[-> | [-> | ->]] Hm];
      [contradiction | contradiction |].
    cbn [Str.truthy]. unfold _on_voice_command. cbn [String.eqb Ascii.eqb].
    unfold stop_recording. cbn [Run.memo] in Hidle. now rewrite Hidle.
Qed.

Lemma stop_recording_result (m : t) (w : World) (mode : Mode) :
  current_mode m = Some mode ->
  let '(m', w', filepath) := stop_recording m w in
  current_mode m' = None /\ is_active m' = is_active m /\
  filepath = delegated_stop mode m w /\
  trace w' = (trace w ++ stop_calls m mode filepath)%list.
Proof.
  intros Hmode. unfold stop_recording, delegated_stop. rewrite Hmode.
  destruct mode;
    [destruct (AudioRecorder.stop_recording _ _) as [[a fs] filepath]
    |destruct (VideoRecorder.stop_recording _ _) as [[v fs] filepath]];
    cbn [current_mode is_active trace snd]; repeat split;
    now apply notify_stop_calls.
Qed.

(** X18: [stop] ends the listening loop but not a turn that is already
    waiting.  After [stop] the recogniser does not listen, the system is
    not active, no session is open and no new turn begins; yet when a
    turn that began before [stop] delivers a voice-memo keyword after
    [stop] has returned, a voice session is opened on the stopped system:
    the mode is voice, the start callback is called, and with an audio
    backend the recorder records. *)
Theorem stop_misses_turn_in_flight (SPEECH_RECOGNITION_AVAILABLE : bool)
    (s : Run.system) (text now now_audio : string) :
  0 < Run.turns s ->
  mentions "voice_memo" (Str.lower text) ->
  let step := Run.step PYAUDIO_AVAILABLE mp4v_opens
                SPEECH_RECOGNITION_AVAILABLE in
  let s1 := step Run.Stop s in
  let s2 := step (Run.Listened (VoiceRecognizer.Text text) now now_audio) s1 in
  VoiceRecognizer.is_listening (Run.recognizer s1) = false /\
  is_active (Run.memo s1) = false /\
  current_mode (Run.memo s1) = None /\
  step Run.TurnBegins s1 = s1 /\
  current_mode (Run.memo s2) = Some voice /\
  is_active (Run.memo s2) = false /\
  VoiceRecognizer.is_listening (Run.recognizer s2) = false /\
  trace (Run.world s2)
  = (trace (Run.world s1) ++ start_calls (Run.memo s1) voice)%list /\
  (PYAUDIO_AVAILABLE = true ->
   AudioRecorder.is_recording (audio_recorder (Run.memo s2)) = true).
Proof.
  intros Hturn Htext step s1 s2.
  assert (Hs1 : VoiceRecognizer.is_listening (Run.recognizer s1) = false /\
                is_active (Run.memo s1) = false /\
                current_mode (Run.memo s1) = None /\
                Run.turns s1 = Run.turns s).
  { unfold s1, step. destruct s as [r m w n].
    cbn [Run.step Run.recognizer Run.memo Run.world Run.turns]. unfold stop.
    set (m1 := {| save_dir := save_dir m; audio_recorder := audio_recorder m;
                  video_recorder := video_recorder m;
                  current_mode := current_mode m; is_active := false;
                  on_recording_start := on_recording_start m;
                  on_recording_stop := on_recording_stop m |}).
    destruct (current_mode m) as [mode|] eqn:Hmode.
    - pose proof (stop_recording_result m1 w mode eq_refl) as H.
      destruct (stop_recording m1 w) as [[m2 w2] filepath].
      destruct H as (H1 & H2 & _).
      cbn [Run.recognizer Run.memo Run.world Run.turns]. auto.
    - unfold stop_recording, m1. cbn [current_mode].
      cbn [Run.recognizer Run.memo Run.world Run.turns]. auto. }
  destruct Hs1 as (H1 & H2 & H3 & H4).
  split; [exact H1|]. split; [exact H2|]. split; [exact H3|].
  split.
  { unfold step. destruct s1 as [r1 m1 w1 n1]. cbn [Run.recognizer] in H1.
    cbn [Run.step Run.recognizer]. unfold VoiceRecognizer._listen_test.
    now rewrite H1. }
  unfold s2, step. clearbody s1. clear s2 step.
  destruct s1 as [r1 m1 w1 n1].
  cbn [Run.recognizer Run.memo Run.world Run.turns] in *.
  destruct n1 as [|n1]; [lia|].
  cbn [Run.step Run.recognizer Run.memo Run.world Run.turns].
  unfold VoiceRecognizer._listen_turn, voice_callback.
  rewrite (match_command_voice text Htext). cbn [Str.truthy].
  unfold _on_voice_command. cbn [String.eqb Ascii.eqb].
  unfold start_voice_memo. rewrite H3.
  unfold AudioRecorder.start_recording.
  destruct PYAUDIO_AVAILABLE; cbn [negb];
    [destruct (AudioRecorder.is_recording (audio_recorder m1)) eqn:Hrec|];
    cbn [fst snd Run.recognizer Run.memo Run.world current_mode is_active
         audio_recorder trace AudioRecorder.is_recording];
    repeat split; auto;
    try (apply notify_start_calls; reflexivity); discriminate.
Qed.

End Running.

(** ** Running without an audio backend *)

Section NoBackend.

Import SmartMirrorMemo.

Variable SPEECH_RECOGNITION_AVAILABLE : bool.
Variable mp4v_opens : nat * nat -> bool.

Lemma no_new_audio_refl (fs : FS) : no_new_audio fs fs.
Proof. unfold no_new_audio. auto. Qed.

Lemma no_new_audio_trans (fs1 fs2 fs3 : FS) :
  no_new_audio fs1 fs2 -> no_new_audio fs2 fs3 -> no_new_audio fs1 fs3.
Proof. unfold no_new_audio. eauto. Qed.

Lemma no_new_audio_mp4 (fs : FS) (p : string) (size : nat * nat)
    (frames : list Frame) :
  no_new_audio fs
    {| nodes := <[p := File (Mp4 size frames)]> (nodes fs); denied := denied fs |}.
Proof.
  intros q nch sw fr nf data. cbn [nodes].
  destruct (decide (p = q)) as [->|Hne].
  - rewrite lookup_insert_eq. discriminate.
  - now rewrite lookup_insert_ne.
Qed.

Lemma start_voice_memo_silent (now : string) (m : t) (w : World) :
  silent m ->
  silent (fst (fst (start_voice_memo false now m w))) /\
  files (snd (fst (start_voice_memo false now m w))) = files w.
Proof.
  intros Hm. unfold start_voice_memo.
  destruct (current_mode m); [auto|]. cbn. auto.
Qed.

Lemma start_video_memo_silent (now now_audio : string)
    (frame_size : option (nat * nat)) (m : t) (w : World) :
  silent m ->
  silent (fst (fst (start_video_memo false mp4v_opens now now_audio frame_size m w))) /\
  no_new_audio (files w)
    (files (snd (fst (start_video_memo false mp4v_opens now now_audio frame_size m w)))).
Proof.
  intros Hm. pose proof Hm as [Ha Hc]. unfold start_video_memo.
  destruct (current_mode m); [split; [exact Hm | apply no_new_audio_refl]|].
  unfold VideoRecorder.start_recording.
  destruct (VideoRecorder.is_recording (video_recorder m)).
  - cbn. split; [exact Hm | apply no_new_audio_refl].
  - unfold VideoRecorder.open_writer, os.write.
    destruct (mp4v_opens _);
      [destruct (nodes (files w) !! _) as [[c|]|];
         try destruct (bool_decide _)|]; cbn [fst snd files];
      (split; [split; [exact Ha | cbn; intros a [= <-]; reflexivity]|]);
      first [apply no_new_audio_refl | apply no_new_audio_mp4].
Qed.

Lemma audio_stop_silent (a : AudioRecorder.t) (fs : FS) :
  AudioRecorder.is_recording a = false ->
  AudioRecorder.stop_recording a fs = (a, fs, None).
Proof. intros H. unfold AudioRecorder.stop_recording. now rewrite H. Qed.

Lemma stop_recording_silent (m : t) (w : World) :
  silent m ->
  silent (fst (fst (stop_recording m w))) /\
  files (snd (fst (stop_recording m w))) = files w.
Proof.
  intros Hm. pose proof Hm as [Ha Hc]. unfold stop_recording.
  destruct (current_mode m) as [[|]|]; [| |auto].
  - rewrite (audio_stop_silent _ _ Ha). cbn. auto.
  - unfold VideoRecorder.stop_recording.
    destruct (VideoRecorder.is_recording (video_recorder m)); cbn [negb].
    + cbn [fst snd files]. split; [split; [exact Ha | cbn; discriminate]|].
      destruct (VideoRecorder._audio_recorder (video_recorder m)) as [a|] eqn:Hcomp;
        [|reflexivity].
      now rewrite (audio_stop_silent a _ (Hc a eq_refl)).
    + cbn. auto.
Qed.

Lemma writer_write_silent (wr : VideoRecorder.VideoWriter) (frame : Frame)
    (fs : FS) :
  no_new_audio fs (VideoRecorder.writer_write wr frame fs).
Proof.
  unfold VideoRecorder.writer_write.
  destruct (VideoRecorder.opened wr); [|apply no_new_audio_refl].
  destruct (_ && _); [|apply no_new_audio_refl].
  destruct (nodes fs !! _) as [[[ | sz frames]|]|];
    first [apply no_new_audio_refl | apply no_new_audio_mp4].
Qed.

Lemma write_video_frame_silent (frame : Frame) (m : t) (w w' : World) :
  write_video_frame frame m w = inr w' ->
  no_new_audio (files w) (files w').
Proof.
  unfold write_video_frame.
  destruct (current_mode m) as [[|]|];
    try (intros [= <-]; apply no_new_audio_refl).
  destruct (VideoRecorder.is_recording (video_recorder m)) eqn:Hrec;
    [|intros [= <-]; apply no_new_audio_refl].
  unfold VideoRecorder.write_frame. rewrite Hrec.
  destruct (VideoRecorder._video_writer _) as [wr|];
    [|intros [= <-]; apply no_new_audio_refl].
  destruct (_ || _);
    [destruct (VideoRecorder.resize _ _); [discriminate|]|];
    intros [= <-]; apply writer_write_silent.
Qed.

Lemma capture_silent (reads : list AudioRecorder.read) (m : t) :
  silent m -> silent (capture reads m).
Proof.
  intros [Ha Hc]. unfold capture. split.
  - cbn [audio_recorder]. now rewrite record_loop_idle.
  - cbn. intros a.
    destruct (VideoRecorder._audio_recorder (video_recorder m)) as [a0|] eqn:H;
      [|discriminate].
    cbn. intros [= <-]. rewrite record_loop_idle; now apply Hc.
Qed.

Lemma on_voice_command_silent (now now_audio command : string)
    (m : t) (w : World) :
  silent m ->
  silent (fst (_on_voice_command false mp4v_opens now now_audio command m w)) /\
  no_new_audio (files w)
    (files (snd (_on_voice_command false mp4v_opens now now_audio command m w))).
Proof.
  intros Hm. unfold _on_voice_command.
  destruct (String.eqb command "voice_memo").
  { destruct (start_voice_memo_silent now m w Hm) as [H1 H2].
    split; [exact H1 | rewrite H2; apply no_new_audio_refl]. }
  destruct (String.eqb command "video_memo");
    [now apply start_video_memo_silent|].
  destruct (String.eqb command "stop").
  { destruct (stop_recording_silent m w Hm) as [H1 H2].
    split; [exact H1 | rewrite H2; apply no_new_audio_refl]. }
  split; [exact Hm | apply no_new_audio_refl].
Qed.

Lemma handle_key_silent (now now_audio : string) (fw fh key : nat)
    (m : t) (w : World) :
  silent m ->
  silent (fst (fst (memo_demo.handle_key false mp4v_opens now now_audio fw fh key m w))) /\
  no_new_audio (files w)
    (files (snd (fst (memo_demo.handle_key false mp4v_opens now now_audio fw fh key m w)))).
Proof.
  intros Hm. unfold memo_demo.handle_key.
  pose proof (start_voice_memo_silent now m w Hm) as [V1 V2].
  pose proof (stop_recording_silent m w Hm) as [S1 S2].
  pose proof (start_video_memo_silent now now_audio (Some (fw, fh)) m w Hm)
    as [R1 R2].
  repeat match goal with
         | |- context [if ?b then _ else _] => destruct b
         end; cbn [fst snd]; rewrite ?V2, ?S2;
    auto using no_new_audio_refl.
Qed.

Lemma step_silent (c : Run.call) (s : Run.system) :
  silent (Run.memo s) ->
  silent (Run.memo (Run.step false mp4v_opens SPEECH_RECOGNITION_AVAILABLE c s)) /\
  no_new_audio (files (Run.world s))
    (files (Run.world (Run.step false mp4v_opens SPEECH_RECOGNITION_AVAILABLE c s))).
Proof.
  intros Hm. destruct s as [r m w n]. cbn [Run.memo Run.world] in *.
  destruct c; cbn [Run.step Run.recognizer Run.memo Run.world Run.turns].
  - split; [exact Hm | apply no_new_audio_refl].
  - unfold stop.
    match goal with |- context [stop_recording ?m1 w] =>
      pose proof (stop_recording_silent m1 w Hm) as [H1 H2];
      destruct (stop_recording m1 w) as [[m2 w2] res] end.
    cbn [fst snd Run.memo Run.world] in *.
    split; [exact H1 | rewrite H2; apply no_new_audio_refl].
  - pose proof (start_voice_memo_silent now m w Hm) as [H1 H2].
    destruct (start_voice_memo _ _ _ _) as [[m' w'] res].
    cbn [fst snd Run.memo Run.world] in *.
    split; [exact H1 | rewrite H2; apply no_new_audio_refl].
  - pose proof (start_video_memo_silent now now_audio frame_size m w Hm) as H.
    destruct (start_video_memo _ _ _ _ _ _ _) as [[m' w'] res]. exact H.
  - pose proof (stop_recording_silent m w Hm) as [H1 H2].
    destruct (stop_recording _ _) as [[m' w'] res].
    cbn [fst snd Run.memo Run.world] in *.
    split; [exact H1 | rewrite H2; apply no_new_audio_refl].
  - destruct (write_video_frame frame m w) as [e|w'] eqn:Hw;
      (split; [exact Hm|]);
      [apply no_new_audio_refl | exact (write_video_frame_silent _ _ _ _ Hw)].
  - split; [now apply capture_silent | apply no_new_audio_refl].
  - destruct (VoiceRecognizer._listen_test r);
      (split; [exact Hm | apply no_new_audio_refl]).
  - destruct n as [|n]; [split; [exact Hm | apply no_new_audio_refl]|].
    unfold VoiceRecognizer._listen_turn, voice_callback.
    destruct h; try (split; [exact Hm | apply no_new_audio_refl]).
    destruct (VoiceRecognizer._match_command text) as [cmd|];
      [|split; [exact Hm | apply no_new_audio_refl]].
    cbn [Str.truthy].
    destruct cmd; [split; [exact Hm | apply no_new_audio_refl]|].
    pose proof (on_voice_command_silent now now_audio (String a cmd) m w Hm)
      as H.
    destruct (_on_voice_command _ _ _ _ _ _ _) as [m' w']. exact H.
  - pose proof (handle_key_silent now now_audio frame_width frame_height
                  key m w Hm) as H.
    destruct (memo_demo.handle_key _ _ _ _ _ _ _ _ _) as [[m' w'] act]. exact H.
  - destruct (memo_demo.feed_frame frame m w) as [e|w'] eqn:Hw;
      (split; [exact Hm|]); [apply no_new_audio_refl|].
    unfold memo_demo.feed_frame, get_recording_mode in Hw.
    destruct (current_mode m) as [[|]|] eqn:Hmode;
      first [injection Hw as <-; apply no_new_audio_refl
            | exact (write_video_frame_silent _ _ _ _ Hw)].
Qed.

Lemma run_silent (calls : list Run.call) (s : Run.system) :
  silent (Run.memo s) ->
  silent (Run.memo (Run.run false mp4v_opens SPEECH_RECOGNITION_AVAILABLE calls s)) /\
  no_new_audio (files (Run.world s))
    (files (Run.world (Run.run false mp4v_opens SPEECH_RECOGNITION_AVAILABLE calls s))).
Proof.
  revert s. induction calls as [|c calls IH]; intros s Hs.
  - split; [exact Hs | apply no_new_audio_refl].
  - cbn [Run.run foldl]. destruct (step_silent c s Hs) as [H1 H2].
    destruct (IH _ H1) as [K1 K2].
    split; [exact K1 | exact (no_new_audio_trans _ _ _ H2 K2)].
Qed.

(** X19: without an audio backend the system never records sound: after
    any run no audio recorder is recording, and every audio container
    among the files was there before the run, unchanged. *)
Theorem no_backend_no_audio (calls : list Run.call) (dir : string)
    (on_start on_stop : option Callback) (fs : FS) :
  let s := Run.run false mp4v_opens SPEECH_RECOGNITION_AVAILABLE calls
             (Run.fresh dir on_start on_stop fs) in
  silent (Run.memo s) /\ no_new_audio fs (files (Run.world s)).
Proof.
  intros s. apply (run_silent calls (Run.fresh dir on_start on_stop fs)).
  split; [reflexivity | discriminate].
Qed.

End NoBackend.

(** ** Runs of the further properties *)

Lemma no_files_accepts (p : string) : accepts_write no_files p.
Proof.
  split; [change (nodes no_files) with (∅ : gmap string node);
          rewrite lookup_empty; discriminate
         | apply not_elem_of_empty].
Qed.

Lemma sidecar_of_plain_stem_witness :
  VideoRecorder.audio_file_of "memos/video_memo_20240101_120000.mp4"
  = "memos/video_memo_20240101_120000_audio.wav".
Proof.
  exact (proj1 (sidecar_of_plain_stem "memos/video_memo_20240101_120000"
                  eq_refl)).
Defined.

Lemma delete_plain_path_witness :
  MemoManager.delete_memo "memos/voice_memo_20240101_120000.wav" voice_shelf
  = (MemoManager.Returned true,
     {| nodes := delete "memos/voice_memo_20240101_120000.wav"
                   (nodes voice_shelf);
        denied := denied voice_shelf |}).
Proof.
  apply (delete_plain_path "memos/voice_memo_20240101_120000.wav" voice_shelf).
  - split; [|apply not_elem_of_empty].
    exists (Wav 1 2 44100 1 two_bytes). reflexivity.
  - reflexivity.
Defined.

Lemma delete_failures_witness :
  MemoManager.delete_memo "memos/voice_memo_20240101_120000.wav" no_files
    = (MemoManager.Returned false, no_files) /\
  MemoManager.delete_memo "memos/archive" memo_files
    = (MemoManager.Returned false, memo_files) /\
  MemoManager.delete_memo "memos/video_memo_20240101_120000.mp4" guarded_pair
    = (MemoManager.Returned false,
       {| nodes := delete "memos/video_memo_20240101_120000.mp4"
                     (nodes guarded_pair);
          denied := denied guarded_pair |}).
Proof.
  split; [|split].
  - apply (proj1 (delete_failures "memos/voice_memo_20240101_120000.wav"
                    no_files)).
    reflexivity.
  - apply (proj1 (proj2 (delete_failures "memos/archive" memo_files))).
    intros [[c Hc] _]. vm_compute in Hc. discriminate Hc.
  - apply (proj2 (proj2 (delete_failures "memos/video_memo_20240101_120000.mp4"
                           guarded_pair))).
    + split; [exists (Mp4 (640, 480) []); reflexivity|].
      change (denied guarded_pair)
        with ({[ "memos/video_memo_20240101_120000_audio.wav" ]} : gset string).
      intros H. apply elem_of_singleton in H. discriminate H.
    + intros H. vm_compute in H. discriminate H.
    + exists (File (Wav 1 2 44100 1 two_bytes)). reflexivity.
    + intros [_ Hfree]. apply Hfree.
      change (denied guarded_pair)
        with ({[ "memos/video_memo_20240101_120000_audio.wav" ]} : gset string).
      apply elem_of_singleton. reflexivity.
Defined.

Lemma delete_twice_witness :
  let fs := snd (MemoManager.delete_memo "memos/video_memo_20240101_120000.mp4"
                   memo_files) in
  MemoManager.delete_memo "memos/video_memo_20240101_120000.mp4" fs
  = (MemoManager.Returned false, fs).
Proof.
  intros fs.
  apply (delete_twice "memos/video_memo_20240101_120000.mp4" memo_files).
  vm_compute. reflexivity.
Defined.

Lemma record_loop_buffers_witness :
  let a := fst (AudioRecorder.start_recording true "20240101_120000"
                  (AudioRecorder.new "memos")) in
  let reads := [AudioRecorder.Chunk two_bytes; AudioRecorder.DeviceError;
                AudioRecorder.Chunk two_bytes] in
  AudioRecorder._frames (AudioRecorder._record_loop reads a) = [two_bytes] /\
  AudioRecorder.is_recording (AudioRecorder._record_loop reads a) = false.
Proof.
  intros a reads.
  destruct (proj1 (record_loop_buffers reads a) eq_refl) as (H1 & H2 & _).
  split; [exact H1 | exact H2].
Defined.



Lemma video_container_holds_frames_witness :
  let '(v1, fs1, _) :=
    VideoRecorder.start_recording true opens_non_empty "20240101_120000"
      "20240101_120000" None (VideoRecorder.new "memos") no_files in
  let '(v2, fs2) :=
    foldl (fun s c => video_step true opens_non_empty c s) (v1, fs1)
          busy_session in
  nodes fs2 !! "memos/video_memo_20240101_120000.mp4"
    = Some (File (Mp4 (640, 480)
                    [full_frame;
                     {| shape := (480, 640); n_channels := 3; image := 2 |}])) /\
  VideoRecorder.is_recording v2 = true.
Proof.
  assert (Hframes : Forall colour_picture (frames_of busy_session)).
  { change (frames_of busy_session) with [full_frame; small_frame].
    apply Forall_cons_2; [split; [reflexivity | cbn; lia]|].
    apply Forall_cons_2; [split; [reflexivity | cbn; lia]|].
    constructor. }
  pose proof (video_container_holds_frames true opens_non_empty
                "20240101_120000" "20240101_120000" None busy_session
                (VideoRecorder.new "memos") no_files eq_refl eq_refl eq_refl
                (no_files_accepts _) Hframes) as H.
  cbv zeta in H.
  destruct (VideoRecorder.start_recording _ _ _ _ _ _ _) as [[v1 fs1] started].
  destruct (foldl _ _ busy_session) as [v2 fs2].
  destruct H as (H1 & _ & _ & H4 & _).
  split; [exact H1 | exact H4].
Defined.

Lemma video_session_footprint_witness :
  let '(v3, fs3, result) :=
    video_session false opens_non_empty "20240101_120000" "20240101_120000"
      None busy_session (VideoRecorder.new "memos") voice_shelf in
  result = Some "memos/video_memo_20240101_120000.mp4" /\
  VideoRecorder.is_recording v3 = false /\
  nodes fs3 !! "memos/voice_memo_20240101_120000.wav"
    = Some (File (Wav 1 2 44100 1 two_bytes)).
Proof.
  pose proof (video_session_footprint false opens_non_empty "20240101_120000"
                "20240101_120000" None busy_session
                (VideoRecorder.new "memos") voice_shelf eq_refl) as H.
  destruct (video_session _ _ _ _ _ _ _ _) as [[v3 fs3] result].
  destruct H as (H1 & H2 & _ & _ & _ & _ & H7).
  split; [exact H1 | split; [exact H2|]].
  rewrite (H7 eq_refl "memos/voice_memo_20240101_120000.wav");
    [reflexivity | discriminate].
Defined.

Lemma speech_without_effect_witness :
  let s := Run.run true opens_non_empty true [Run.Start; Run.TurnBegins]
             (Run.fresh "memos" None None no_files) in
  Run.turns s = 1 /\
  Run.step true opens_non_empty true
    (Run.Listened (VoiceRecognizer.Text "Good morning") "20240101_120000"
       "20240101_120000") s = turn_over s.
Proof.
  intros s. split; [reflexivity|].
  apply (proj1 (proj2 (speech_without_effect true opens_non_empty true s
                         "Good morning" "20240101_120000" "20240101_120000")));
    [reflexivity | |];
    intros H; apply mentions_any in H as (kws & Hin & Hany);
    cbn [In VoiceRecognizer.COMMANDS] in Hin;
    destruct Hin as [Hin | [Hin | [Hin | []]]];
    inversion Hin; subst kws; vm_compute in Hany; discriminate Hany.
Defined.

Lemma stop_misses_turn_in_flight_witness :
  let s := Run.run true opens_non_empty true [Run.Start; Run.TurnBegins]
             (Run.fresh "memos" (Some 1) (Some 2) no_files) in
  let s1 := Run.step true opens_non_empty true Run.Stop s in
  let s2 := Run.step true opens_non_empty true
              (Run.Listened (VoiceRecognizer.Text "Voice memo, please")
                 "20240101_120000" "20240101_120000") s1 in
  SmartMirrorMemo.is_active (Run.memo s1) = false /\
  VoiceRecognizer.is_listening (Run.recognizer s2) = false /\
  SmartMirrorMemo.current_mode (Run.memo s2) = Some voice /\
  trace (Run.world s2) = [recording_start 1 voice].
Proof.
  intros s s1 s2.
  assert (Hturn : 0 < Run.turns s) by (cbn; lia).
  assert (Htext : mentions "voice_memo" (Str.lower "Voice memo, please")).
  { apply mentions_any. eexists. split; [left; reflexivity|].
    vm_compute. reflexivity. }
  pose proof (stop_misses_turn_in_flight true opens_non_empty true s
                "Voice memo, please" "20240101_120000" "20240101_120000"
                Hturn Htext) as H.
  cbv zeta in H. fold s1 in H. fold s2 in H.
  destruct H as (_ & H2 & _ & _ & H5 & _ & H7 & H8 & _).
  split; [exact H2|]. split; [exact H7|]. split; [exact H5|].
  rewrite H8. reflexivity.
Defined.
